(** * The Triton chat-completions adapter (guardrails_adapter/app.py)

    A shallow embedding of the adapter: the prompt builder
    [messages_to_prompt], the completion cleaner [clean_completion] and the
    request handler [chat_completions], followed by the properties of the
    specification that concern them.

    Text.  A Python [str] is a [list ascii]: a sequence of code points below
    256.  On that range the whitespace table, the line-boundary table and the
    case mapping written below are the ones of CPython's [str.strip],
    [str.splitlines], [str.lower] and of [re] on [str] patterns.  Text with a
    code point of 256 or more is outside the embedding.  The one place where
    such text is treated differently by two tests of the code is the final
    marker: [(?i)] also matches U+017F for [s] and U+0130, U+0131 for [i],
    which [str.lower] does not turn into these letters; statements about the
    final marker are therefore written with the test they are about, the
    lower-cased containment of the guard or the search of the pattern.

    Numbers.  A Python [float] is a binary64 [float]; [int] is [Z].

    Effects.  The handler reads the wall clock and performs one HTTP call.
    Both are given by an environment; the handler threads a state that counts
    the clock readings and logs the outbound calls, and it either returns or
    raises. *)

From Stdlib Require Import ZArith Ascii String List Bool Lia.
From Stdlib Require Import PrimFloat FloatOps SpecFloat.
From stdpp Require Import base option list gmap strings pretty.

Abbreviation str := (list ascii).

(** A string literal as a [str]. *)
Definition py (s : string) : str := list_ascii_of_string s.
Arguments py s%_string.

(** Python truthiness of a [str]: the empty string is falsy. *)
Definition truthy (s : str) : bool :=
  match s with [] => false | _ :: _ => true end.

(** ** Built-in [str] methods *)
Module Py.

Definition LF : ascii := ascii_of_nat 10.
Definition CR : ascii := ascii_of_nat 13.

(** [Py_UNICODE_ISSPACE] on code points below 256:
    U+0009..U+000D, U+001C..U+0020, U+0085, U+00A0. *)
Definition isspace (c : ascii) : bool :=
  let n := N_of_ascii c in
  ((9 <=? n) && (n <=? 13) || (28 <=? n) && (n <=? 32)
   || (n =? 133) || (n =? 160))%N.

(** The line boundaries of [str.splitlines] below 256:
    LF, VT, FF, CR, FS, GS, RS, NEL. *)
Definition is_linebreak (c : ascii) : bool :=
  let n := N_of_ascii c in
  ((10 <=? n) && (n <=? 13) || (28 <=? n) && (n <=? 30) || (n =? 133))%N.

(** [str.lower] on one code point below 256: A..Z and the Latin-1 capitals
    U+00C0..U+00DE (U+00D7 apart) move up by 32. *)
Definition lower_char (c : ascii) : ascii :=
  let n := N_of_ascii c in
  if ((65 <=? n) && (n <=? 90)
      || (192 <=? n) && (n <=? 222) && negb (n =? 215))%N
  then ascii_of_N (n + 32) else c.

Definition lower (s : str) : str := map lower_char s.

(** [str.upper] on an ASCII letter.  The adapter only upper-cases one of the
    four role names, which are ASCII. *)
Definition upper_char (c : ascii) : ascii :=
  let n := N_of_ascii c in
  if ((97 <=? n) && (n <=? 122))%N then ascii_of_N (n - 32) else c.

Definition upper (s : str) : str := map upper_char s.

Fixpoint lstrip (s : str) : str :=
  match s with
  | [] => []
  | c :: s' => if isspace c then lstrip s' else s
  end.

Definition rstrip (s : str) : str := rev (lstrip (rev s)).

(** [s.strip()] *)
Definition strip (s : str) : str := rstrip (lstrip s).

(** [s.startswith(p)] *)
Fixpoint startswith (p s : str) : bool :=
  match p, s with
  | [], _ => true
  | _ :: _, [] => false
  | a :: p', b :: s' => Ascii.eqb a b && startswith p' s'
  end.

(** [p in s] *)
Fixpoint contains (p s : str) : bool :=
  startswith p s ||
  match s with
  | [] => false
  | _ :: s' => contains p s'
  end.

(** The rightmost occurrence of [sep] in [s]: the text before it and the
    text after it. *)
Fixpoint rfind (sep s : str) : option (str * str) :=
  match s with
  | [] => if startswith sep [] then Some ([], []) else None
  | c :: s' =>
      match rfind sep s' with
      | Some (b, a) => Some (c :: b, a)
      | None =>
          if startswith sep s then Some ([], drop (length sep) s) else None
      end
  end.

(** [s.rsplit(sep, 1)] for a non-empty [sep]. *)
Definition rsplit1 (sep s : str) : list str :=
  match rfind sep s with
  | Some (b, a) => [b; a]
  | None => [s]
  end.

(** [parts[-1]] of a list produced by a split (never empty). *)
Definition last_part (parts : list str) : str := List.last parts [].

(** [s.splitlines()].  [after_cr] tells that the previous character was a
    CR that ended a line, so that an LF here belongs to the same boundary. *)
Fixpoint lines_from (after_cr : bool) (s : str) : list str :=
  match s with
  | [] => []
  | c :: s' =>
      if after_cr && Ascii.eqb c LF then lines_from false s'
      else if is_linebreak c then [] :: lines_from (Ascii.eqb c CR) s'
      else match lines_from false s' with
           | [] => [[c]]
           | l :: ls => (c :: l) :: ls
           end
  end.

Definition splitlines (s : str) : list str := lines_from false s.

(** [sep.join(parts)] *)
Fixpoint join (sep : str) (parts : list str) : str :=
  match parts with
  | [] => []
  | [p] => p
  | p :: ps => p ++ sep ++ join sep ps
  end.

End Py.

(** ** The two regular expressions of the cleaner *)
Module Re.

(** A literal of a pattern compiled with [(?i)] against one character below
    256: the two match when they have the same lower case.  (Beyond 256,
    outside this embedding, [(?i)] has three more matches for the letters of
    the marker: U+017F for [s], U+0130 and U+0131 for [i].) *)
Definition char_ci (p c : ascii) : bool :=
  Ascii.eqb (Py.lower_char p) (Py.lower_char c).

(** The literal [p], compiled with [(?i)], matches at the start of [s]. *)
Fixpoint startswith_ci (p s : str) : bool :=
  match p, s with
  | [], _ => true
  | _ :: _, [] => false
  | a :: p', b :: s' => char_ci a b && startswith_ci p' s'
  end.

(** The leftmost match of the literal [p] under [(?i)]: the text before it
    and the text after it. *)
Fixpoint search_ci (p s : str) : option (str * str) :=
  if startswith_ci p s then Some ([], drop (length p) s)
  else match s with
       | [] => None
       | c :: s' =>
           match search_ci p s' with
           | Some (b, a) => Some (c :: b, a)
           | None => None
           end
       end.

(** [re.split("(?i)" + p, s, maxsplit=1)] for a literal [p]. *)
Definition split1_ci (p s : str) : list str :=
  match search_ci p s with
  | Some (b, a) => [b; a]
  | None => [s]
  end.

(** The alternatives of [(USER|User|SYSTEM|System|ASSISTANT|Assistant)]. *)
Definition role_labels : list str :=
  [py "USER"; py "User"; py "SYSTEM"; py "System";
   py "ASSISTANT"; py "Assistant"].

(** [\s*:] at the start of [s]: [\s] never matches a colon, so the greedy
    run of whitespace is followed by the colon or the match fails. *)
Definition ws_colon (s : str) : bool :=
  match Py.lstrip s with
  | c :: _ => Ascii.eqb c ":"%char
  | [] => false
  end.

(** [re.match(r"^(USER|User|SYSTEM|System|ASSISTANT|Assistant)\s*:", s)]
    succeeds. *)
Definition match_role (s : str) : bool :=
  existsb (fun lab => Py.startswith lab s && ws_colon (drop (length lab) s))
          role_labels.

End Re.

(** ** The adapter *)

Record ChatMessage := { role : str; content : str }.

Definition known_roles : list str :=
  [py "system"; py "user"; py "assistant"; py "tool"].

Definition sentinel : str := py "ASSISTANT:".
Definition final_marker : str := py "assistantfinal".
Definition newline : str := [Py.LF].

(** The body of the loop of [messages_to_prompt]: one message appended to
    [lines]. *)
Definition prompt_step (lines : list str) (m : ChatMessage) : list str :=
  let role := Py.lower (Py.strip (role m)) in
  let role := if bool_decide (role ∈ known_roles) then role else py "user" in
  lines ++ [Py.upper role ++ py ": " ++ content m].

Definition messages_to_prompt (messages : list ChatMessage) : str :=
  let lines := fold_left prompt_step messages [] in
  let lines := lines ++ [py "ASSISTANT:"] in
  Py.join newline lines.

Fixpoint first_truthy_stripped (lns : list str) : str :=
  match lns with
  | [] => []
  | ln :: rest =>
      let ln := Py.strip ln in
      if truthy ln then ln else first_truthy_stripped rest
  end.

Definition _first_non_empty_line (s : str) : str :=
  first_truthy_stripped (Py.splitlines s).

(** The body of the loop over [t.splitlines()] in [clean_completion]. *)
Definition keep_line (cleaned_lines : list str) (ln : str) : list str :=
  let ln_stripped := Py.strip ln in
  if Re.match_role ln_stripped then cleaned_lines
  else if truthy ln_stripped then cleaned_lines ++ [ln_stripped]
  else cleaned_lines.

(** The transcript-line filter of [clean_completion]: the list
    [cleaned_lines] once the loop is over. *)
Definition drop_transcript_lines (t : str) : list str :=
  fold_left keep_line (Py.splitlines t) [].

(** The text after the echo-suppression step. *)
Definition after_sentinel (t : str) : str :=
  if Py.contains sentinel t
  then Py.strip (Py.last_part (Py.rsplit1 sentinel t))
  else t.

(** The text after the final-marker step. *)
Definition after_final_marker (t : str) : str :=
  if Py.contains final_marker (Py.lower t) then
    match Re.split1_ci final_marker t with
    | [_; p1] => Py.strip p1
    | _ => t
    end
  else t.

Definition clean_completion (text : str) : str :=
  if negb (truthy text) then []
  else
    let t := Py.strip text in
    let t := after_sentinel t in
    let t := after_final_marker t in
    let cleaned_lines := drop_transcript_lines t in
    let t := Py.strip (Py.join newline cleaned_lines) in
    let first := _first_non_empty_line t in
    if truthy first then first else t.

(** ** JSON values, requests and replies *)

#[warnings="-register-all"] Inductive json :=
  | JNull
  | JBool (b : bool)
  | JInt (n : Z)
  | JFloat (x : float)
  | JStr (s : str)
  | JList (l : list json)
  | JDict (d : gmap string json).

(** [stop: Optional[Union[str, List[str]]]] *)
Inductive stop_field :=
  | StopStr (s : str)
  | StopList (l : list str).

Record ChatCompletionsRequest := {
  model : option str;
  messages : list ChatMessage;
  temperature : option float;
  max_tokens : option Z;
  stream : option bool;
  stop : option stop_field
}.

(** A field of the JSON body of a request: missing, [null], or a value. *)
Inductive field (A : Type) :=
  | Absent
  | Null
  | Given (a : A).
Arguments Absent {A}.
Arguments Null {A}.
Arguments Given {A} a.

Record request_body := {
  body_model : field str;
  body_messages : list ChatMessage;
  body_temperature : field float;
  body_max_tokens : field Z;
  body_stream : field bool;
  body_stop : field stop_field
}.

(** An [Optional] field with a declared default: the default stands for a
    missing field only, an explicit [null] is kept as [None]. *)
Definition optional {A} (default : option A) (f : field A) : option A :=
  match f with
  | Absent => default
  | Null => None
  | Given a => Some a
  end.

(** The construction of a [ChatCompletionsRequest] from a body, with the
    defaults of the class declaration. *)
Definition model_validate (b : request_body) : ChatCompletionsRequest :=
  {| model := optional None (body_model b);
     messages := body_messages b;
     temperature := optional (Some 0%float) (body_temperature b);
     max_tokens := optional (Some 256%Z) (body_max_tokens b);
     stream := optional (Some false) (body_stream b);
     stop := optional None (body_stop b) |}.

(** What the handler reads of a [requests.Response]; [json_body] is [None]
    when the body does not decode. *)
Record Response := {
  status_code : Z;
  text : str;
  json_body : option json
}.

Inductive detail :=
  | DetailStr (s : str)
  | DetailDict (d : gmap string json).

Inductive exn :=
  | HTTPException (status : Z) (d : detail)
  | RequestException (cause : str)
  | JSONDecodeError
  | AttributeError
  | ValueError
  | OverflowError.

(** ** The handler's effects *)

(** The process environment: configuration, the successive readings of
    [time.time()], and what [requests.post] does with a call. *)
Record env := {
  TRITON_BASE : str;
  TRITON_MODEL : str;
  time_time : nat -> float;
  requests_post : str -> json -> Z -> exn + Response
}.

(** An outbound call: URL, JSON body, timeout in seconds. *)
Record call := { url : str; body : json; timeout : Z }.

Record state := {
  ticks : nat;
  calls : list call
}.

Inductive outcome (A : Type) :=
  | Returns (a : A)
  | Raises (e : exn).
Arguments Returns {A} a.
Arguments Raises {A} e.

Definition M (A : Type) : Type := env -> state -> outcome A * state.

#[global] Instance M_ret : MRet M := fun A a _ st => (Returns a, st).

#[global] Instance M_bind : MBind M := fun A B k m en st =>
  match m en st with
  | (Returns a, st') => k a en st'
  | (Raises e, st') => (Raises e, st')
  end.

Definition raise {A} (e : exn) : M A := fun _ st => (Raises e, st).

Definition config {A} (f : env -> A) : M A := fun en st => (Returns (f en), st).

(** [time.time()] *)
Definition now : M float := fun en st =>
  (Returns (time_time en (ticks st)),
   {| ticks := S (ticks st); calls := calls st |}).

(** [requests.post(url, json=payload, timeout=timeout)]: the call is
    logged, then it returns a reply or raises. *)
Definition post (u : str) (payload : json) (tmo : Z) : M Response :=
  fun en st =>
    let st' := {| ticks := ticks st;
                  calls := calls st ++ [{| url := u; body := payload;
                                           timeout := tmo |}] |} in
    match requests_post en u payload tmo with
    | inl e => (Raises e, st')
    | inr r => (Returns r, st')
    end.

(** An operation that returns or raises without touching the state. *)
Definition lift {A} (x : exn + A) : M A := fun _ st =>
  match x with
  | inl e => (Raises e, st)
  | inr a => (Returns a, st)
  end.

(** [int(x)] on a float: truncation toward zero; NaN and the infinities
    raise. *)
Definition int_of_float (x : float) : exn + Z :=
  match Prim2SF x with
  | S754_zero _ => inr 0%Z
  | S754_finite s m e =>
      let v := if (0 <=? e)%Z then (Z.pos m * 2 ^ e)%Z
               else Z.quot (Z.pos m) (2 ^ (- e)) in
      inr (if s then (- v)%Z else v)
  | S754_infinity _ => inl OverflowError
  | S754_nan => inl ValueError
  end.

(** [str(n)] on an integer. *)
Definition str_of_int (n : Z) : str := py (pretty n).

(** Python truthiness of a JSON value. *)
Definition json_truthy (v : json) : bool :=
  match v with
  | JNull => false
  | JBool b => b
  | JInt n => negb (n =? 0)%Z
  | JFloat x => negb (PrimFloat.eqb x 0)
  | JStr s => truthy s
  | JList l => match l with [] => false | _ :: _ => true end
  | JDict d => negb (bool_decide (map_to_list d = []))
  end.

(** [clean_completion] on whatever [data.get] returned: a falsy value takes
    the early return, another value that is not a [str] has no [strip]. *)
Definition clean_completion_dyn (raw_text : json) : exn + str :=
  match raw_text with
  | JStr s => inr (clean_completion s)
  | v => if json_truthy v then inl AttributeError else inr []
  end.

(** [r.json()] *)
Definition json_of (r : Response) : exn + json :=
  match json_body r with
  | Some data => inr data
  | None => inl JSONDecodeError
  end.

(** [data.get] of the key [text_output], the empty string by default. *)
Definition get_text_output (data : json) : exn + json :=
  match data with
  | JDict d => inr (default (JStr []) (d !! "text_output"))
  | _ => inl AttributeError
  end.

(** ** The handler *)

(** The scalar stop value resolved from the request. *)
Definition stop_val (req : ChatCompletionsRequest) : option str :=
  match stop req with
  | Some (StopList (x :: _)) => Some x
  | Some (StopStr s) => Some s
  | _ => None
  end.

(** [params], the parameters of the backend payload. *)
Definition params (req : ChatCompletionsRequest) : gmap string json :=
  let params : gmap string json :=
    {[ "stream" := JBool false;
       "temperature" := JFloat (match temperature req with
                                | Some x => x
                                | None => 0%float
                                end);
       "max_tokens" := JInt (match max_tokens req with
                             | Some n => n
                             | None => 256%Z
                             end) ]} in
  match stop_val req with
  | Some s => if truthy s then <["stop" := JStr s]> params else params
  | None => params
  end.

(** [payload], the body of the outbound call. *)
Definition payload (req : ChatCompletionsRequest) : gmap string json :=
  {[ "text_input" := JStr (messages_to_prompt (messages req));
     "parameters" := JDict (params req) ]}.

(** The dictionary returned on success. *)
Definition completion (req : ChatCompletionsRequest) (backend_model : str)
    (text : str) (ms created : Z) (dt : float) : gmap string json :=
  {[ "id" := JStr (py "chatcmpl-adapter-" ++ str_of_int ms);
     "object" := JStr (py "chat.completion");
     "created" := JInt created;
     "model" := JStr (match model req with
                      | Some m => if truthy m then m else backend_model
                      | None => backend_model
                      end);
     "choices" := JList [JDict
       {[ "index" := JInt 0;
          "message" := JDict {[ "role" := JStr (py "assistant");
                                "content" := JStr text ]};
          "finish_reason" := JStr (py "stop") ]}];
     "usage" := JDict
       {[ "prompt_tokens" := JNull;
          "completion_tokens" := JNull;
          "total_tokens" := JNull;
          "triton_latency_s" := JFloat dt ]} ]}.

(** [if req.stream:] *)
Definition stream_on (req : ChatCompletionsRequest) : bool :=
  match stream req with
  | Some b => b
  | None => false
  end.

Definition generate_url (en : env) : str :=
  TRITON_BASE en ++ py "/v2/models/" ++ TRITON_MODEL en ++ py "/generate".

Definition chat_completions (req : ChatCompletionsRequest)
  : M (gmap string json) :=
  if stream_on req then
    raise (HTTPException 400
      (DetailStr (py "stream=true not supported in this minimal adapter yet")))
  else
    let payload := payload req in
    url ← config generate_url;
    t0 ← now;
    r ← post url (JDict payload) 300;
    t1 ← now;
    let dt := (t1 - t0)%float in
    if negb (status_code r =? 200)%Z then
      raise (HTTPException 502
        (DetailDict {[ "triton_status" := JInt (status_code r);
                       "triton_body" := JStr (text r) ]}))
    else
      data ← lift (json_of r);
      raw_text ← lift (get_text_output data);
      text ← lift (clean_completion_dyn raw_text);
      t_id ← now;
      ms ← lift (int_of_float (t_id * 1000)%float);
      t_created ← now;
      created ← lift (int_of_float t_created);
      backend_model ← config TRITON_MODEL;
      mret (completion req backend_model text ms created dt).

(** ** Vocabulary of the statements *)

(** [a] occurs in [b] as a contiguous piece. *)
Definition infix_of (a b : str) : Prop := exists p q, b = p ++ a ++ q.

(** The first character, if any, is not whitespace. *)
Definition head_ok (s : str) : Prop :=
  match s with
  | [] => True
  | c :: _ => Py.isspace c = false
  end.

(** No whitespace at either end. *)
Definition trimmed (s : str) : Prop := head_ok s /\ head_ok (rev s).

Definition no_break (s : str) : Prop :=
  Forall (fun c => Py.is_linebreak c = false) s.

(** What the filter lets through: a non-empty trimmed single line that the
    role pattern does not match. *)
Definition good_line (l : str) : Prop :=
  l <> [] /\ trimmed l /\ no_break l /\ Re.match_role l = false.

(** The test of [keep_line] on a stripped line. *)
Definition kept (l : str) : bool := negb (Re.match_role l) && truthy l.

(** The lines that survive the filter, for a raw text. *)
Definition cleaned_lines (text : str) : list str :=
  drop_transcript_lines (after_final_marker (after_sentinel (Py.strip text))).

(** The role labels as the specification words them: USER, SYSTEM and
    ASSISTANT, compared without regard to case, then optional whitespace and
    a colon. *)
Definition spec_role_labels : list str :=
  [py "USER"; py "SYSTEM"; py "ASSISTANT"].

Definition role_prefixed_ci (s : str) : bool :=
  existsb (fun lab => Re.startswith_ci lab s && Re.ws_colon (drop (length lab) s))
          spec_role_labels.

(** The filtering step in the specification's words: every line of [t] whose
    trimmed form carries a role label, in any case, is absent from the
    result. *)
Definition filter_drops_ci (t : str) : Prop :=
  forall ln, In ln (Py.splitlines t) ->
             role_prefixed_ci (Py.strip ln) = true ->
             ~ In (Py.strip ln) (drop_transcript_lines t).

(** The invariant of the cleaner's output in the specification's words: no
    sentinel, and no line that carries a role label, in any case. *)
Definition output_clean_ci (x : str) : Prop :=
  Py.contains sentinel (clean_completion x) = false /\
  Forall (fun ln => role_prefixed_ci (Py.strip ln) = false)
         (Py.splitlines (clean_completion x)).

(** Equality of two strings without regard to case. *)
Definition eq_ci (a b : str) : bool := bool_decide (Py.lower a = Py.lower b).

(** The tag of a turn in the specification's words: the role as it is given,
    compared without regard to case with the four role names, [user] when it
    is none of them, in upper case. *)
Definition role_tag_untrimmed (r : str) : str :=
  if eq_ci r (py "system") then py "SYSTEM"
  else if eq_ci r (py "user") then py "USER"
  else if eq_ci r (py "assistant") then py "ASSISTANT"
  else if eq_ci r (py "tool") then py "TOOL"
  else py "USER".

(** The prompt in the specification's words: one line per turn, tag, colon,
    space and content, then the sentinel, joined by single newlines. *)
Definition prompt_as_specified (ms : list ChatMessage) : str :=
  Py.join newline
    (map (fun m => role_tag_untrimmed (role m) ++ py ": " ++ content m) ms
     ++ [sentinel]).

(** The tag of a turn as the code computes it: the whitespace around the role
    is removed first, and the rest is compared without regard to case with the
    four role names, [user] when it is none of them, in upper case. *)
Definition role_tag (r : str) : str :=
  let r := Py.strip r in
  if eq_ci r (py "system") then py "SYSTEM"
  else if eq_ci r (py "user") then py "USER"
  else if eq_ci r (py "assistant") then py "ASSISTANT"
  else if eq_ci r (py "tool") then py "TOOL"
  else py "USER".

Definition turn_line (m : ChatMessage) : str :=
  role_tag (role m) ++ py ": " ++ content m.

(** The reply of [requests.post] to the call of a request. *)
Definition the_call (req : ChatCompletionsRequest) (en : env) : exn + Response :=
  requests_post en (generate_url en) (JDict (payload req)) 300.

(** The state after a run that got past the stream check: [n] more clock
    readings, and the one outbound call. *)
Definition after_call (req : ChatCompletionsRequest) (en : env) (st : state)
    (n : nat) : state :=
  {| ticks := n + ticks st;
     calls := calls st ++ [{| url := generate_url en;
                              body := JDict (payload req);
                              timeout := 300 |}] |}.

(** The elapsed time measured around the call: the reading taken after it
    minus the reading taken before it. *)
Definition latency (en : env) (st : state) : float :=
  (time_time en (S (ticks st)) - time_time en (ticks st))%float.

(** [int(time.time()*1000)] at the third reading of a run, the one of the
    id. *)
Definition id_stamp (en : env) (st : state) : exn + Z :=
  int_of_float (time_time en (S (S (ticks st))) * 1000)%float.

(** [int(time.time())] at the fourth reading of a run. *)
Definition created_stamp (en : env) (st : state) : exn + Z :=
  int_of_float (time_time en (S (S (S (ticks st))))).

Definition body_of (mo : field str) (ms : list ChatMessage) (t : field float)
    (k : field Z) (sm : field bool) (sp : field stop_field) : request_body :=
  {| body_model := mo; body_messages := ms; body_temperature := t;
     body_max_tokens := k; body_stream := sm; body_stop := sp |}.

(** ** Sample data *)

Definition user_says (s : string) : ChatMessage :=
  {| role := py "user"; content := py s |}.

Definition request_of (mo : option str) (sp : option stop_field)
    (sm : option bool) : ChatCompletionsRequest :=
  {| model := mo; messages := [user_says "Say only: OK"];
     temperature := Some 0%float; max_tokens := Some 256%Z;
     stream := sm; stop := sp |}.

(** A reply in which the backend echoes the prompt before its answer. *)
Definition ok_reply : Response :=
  {| status_code := 200;
     text := py "{}";
     json_body := Some (JDict
       {[ "text_output" := JStr (py "USER: Say only: OK ASSISTANT: OK") ]}) |}.

Definition env_of (clock : nat -> float) (backend : exn + Response) : env :=
  {| TRITON_BASE := py "http://172.17.0.2:8000";
     TRITON_MODEL := py "vllm_model";
     time_time := clock;
     requests_post := fun _ _ _ => backend |}.

(** A clock whose successive readings fall in the same millisecond. *)
Definition coarse_clock (n : nat) : float := 1700000000.5%float.

(** A clock that advances by three quarters of a second per reading. *)
Fixpoint running_clock (n : nat) : float :=
  match n with
  | 0 => 1700000000.5%float
  | S k => (running_clock k + 0.75)%float
  end.

Definition st0 : state := {| ticks := 0; calls := [] |}.

Definition read_timeout : exn :=
  RequestException (py "Read timed out. (read timeout=300)").

(** ** Configuration and the informational endpoints *)

(** [s.lstrip(chars)] *)
Fixpoint lstrip_chars (chars s : str) : str :=
  match s with
  | [] => []
  | c :: s' => if existsb (Ascii.eqb c) chars then lstrip_chars chars s' else s
  end.

(** [s.rstrip(chars)] *)
Definition rstrip_chars (chars s : str) : str :=
  rev (lstrip_chars chars (rev s)).

(** [os.environ.get(key, default)] *)
Definition environ_get (environ : gmap string str) (key : string)
    (dflt : str) : str :=
  default dflt (environ !! key).

(** The two module-level constants, read from the process environment, with
    the clock and the network of the process. *)
Definition configure (environ : gmap string str) (clock : nat -> float)
    (backend : str -> json -> Z -> exn + Response) : env :=
  {| TRITON_BASE :=
       rstrip_chars (py "/")
         (environ_get environ "TRITON_BASE" (py "http://172.17.0.2:8000"));
     TRITON_MODEL := environ_get environ "TRITON_MODEL" (py "vllm_model");
     time_time := clock;
     requests_post := backend |}.

Definition health (en : env) : gmap string json :=
  {[ "ok" := JBool true;
     "triton_base" := JStr (TRITON_BASE en);
     "triton_model" := JStr (TRITON_MODEL en) ]}.

Definition list_models (en : env) : gmap string json :=
  {[ "object" := JStr (py "list");
     "data" := JList [JDict {[ "id" := JStr (TRITON_MODEL en);
                               "object" := JStr (py "model") ]}] ]}.

(** All characters are whitespace. *)
Definition blank (s : str) : Prop := Forall (fun c => Py.isspace c = true) s.

(** The pattern matches nowhere in [s]: at none of its positions. *)
Definition no_match_in (p s : str) : Prop :=
  forall u v, s = u ++ v -> Re.startswith_ci p v = false.

(** The one entry of [choices] for a content. *)
Definition choice_of (c : str) : json :=
  JDict {[ "index" := JInt 0;
           "message" := JDict {[ "role" := JStr (py "assistant");
                                 "content" := JStr c ]};
           "finish_reason" := JStr (py "stop") ]}.

(** More sample replies. *)
Definition no_content_reply : Response :=
  {| status_code := 204; text := []; json_body := None |}.

Definition html_reply : Response :=
  {| status_code := 200; text := py "<html>busy</html>"; json_body := None |}.

Definition empty_object_reply : Response :=
  {| status_code := 200; text := py "{}"; json_body := Some (JDict ∅) |}.

(** * Properties *)

(** ** Pieces of a string *)
Lemma infix_of_refl s : infix_of s s.
Proof. exists [], []. by rewrite app_nil_r. Qed.

Lemma infix_of_trans a b c : infix_of a b -> infix_of b c -> infix_of a c.
Proof.
  intros (p & q & ->) (p' & q' & ->).
  exists (p' ++ p), (q ++ q'). by rewrite !app_assoc.
Qed.

Lemma infix_of_length a b : infix_of a b -> length a <= length b.
Proof. intros (p & q & ->). rewrite !length_app. lia. Qed.

Lemma infix_of_cons a c b : infix_of a b -> infix_of a (c :: b).
Proof. intros (p & q & ->). by exists (c :: p), q. Qed.

Lemma infix_of_suffix a p : infix_of a (p ++ a).
Proof. exists p, []. by rewrite app_nil_r. Qed.

Lemma infix_of_prefix a q : infix_of a (a ++ q).
Proof. by exists [], q. Qed.

Lemma infix_of_drop n s : infix_of (drop n s) s.
Proof. rewrite <- (take_drop n s) at 2. apply infix_of_suffix. Qed.

Lemma startswith_spec p s : Py.startswith p s = true <-> exists r, s = p ++ r.
Proof.
  revert s. induction p as [|a p IH]; intros s; simpl.
  - split; eauto.
  - destruct s as [|b s]; simpl.
    + split; [done | intros [r Hr]; discriminate].
    + rewrite andb_true_iff, IH, Ascii.eqb_eq. split.
      * intros [-> [r ->]]. eauto.
      * intros [r Hr]. injection Hr as -> ->. eauto.
Qed.

Lemma contains_spec p s : Py.contains p s = true <-> infix_of p s.
Proof.
  induction s as [|c s IH]; simpl.
  - rewrite orb_false_r, startswith_spec. split.
    + intros [r Hr]. by exists [], r.
    + intros (u & v & Huv). symmetry in Huv.
      apply app_eq_nil in Huv as [-> Huv]. apply app_eq_nil in Huv as [-> ->]. by exists [].
  - rewrite orb_true_iff, IH, startswith_spec. split.
    + intros [[r ->] | H]; [apply infix_of_prefix | by apply infix_of_cons].
    + intros ([|d u] & v & Huv); simpl in Huv.
      * left. eauto.
      * right. injection Huv as -> ->. by exists u, v.
Qed.

Lemma contains_infix p a b :
  infix_of a b -> Py.contains p b = false -> Py.contains p a = false.
Proof.
  intros Hab Hb. destruct (Py.contains p a) eqn:Ha; [|done].
  apply contains_spec in Ha.
  assert (Py.contains p b = true) as Hb'
    by (apply contains_spec; eapply infix_of_trans; eauto).
  congruence.
Qed.

Lemma lstrip_suffix s : exists ws, s = ws ++ Py.lstrip s.
Proof.
  induction s as [|c s [ws IH]]; simpl.
  - by exists [].
  - destruct (Py.isspace c); [|by exists []].
    exists (c :: ws). simpl. by f_equal.
Qed.

Lemma lstrip_head_ok s : head_ok (Py.lstrip s).
Proof.
  induction s as [|c s IH]; simpl; [done|].
  destruct (Py.isspace c) eqn:E; [done|]. exact E.
Qed.

Lemma lstrip_id s : head_ok s -> Py.lstrip s = s.
Proof. destruct s as [|c s]; simpl; [done|]. by intros ->. Qed.

Lemma head_ok_prefix a b : a <> [] -> head_ok (a ++ b) -> head_ok a.
Proof. by destruct a. Qed.

Lemma head_ok_app a b : a <> [] -> head_ok a -> head_ok (a ++ b).
Proof. by destruct a. Qed.

Lemma strip_infix s : infix_of (Py.strip s) s.
Proof.
  unfold Py.strip, Py.rstrip.
  destruct (lstrip_suffix s) as [ws Hws].
  destruct (lstrip_suffix (rev (Py.lstrip s))) as [ws' Hws'].
  exists ws, (rev ws').
  rewrite Hws at 1. f_equal.
  rewrite <- rev_app_distr, <- Hws'. by rewrite rev_involutive.
Qed.

Lemma strip_trimmed s : trimmed (Py.strip s).
Proof.
  unfold Py.strip, Py.rstrip, trimmed. rewrite rev_involutive.
  split; [|apply lstrip_head_ok].
  destruct (lstrip_suffix (rev (Py.lstrip s))) as [ws Hws].
  set (r := Py.lstrip (rev (Py.lstrip s))) in *.
  destruct (decide (r = [])) as [->|Hr]; [done|].
  apply (f_equal (@rev ascii)) in Hws.
  rewrite rev_involutive, rev_app_distr in Hws.
  apply head_ok_prefix with (rev ws).
  - intros E. apply Hr. apply (f_equal (@rev ascii)) in E.
    by rewrite rev_involutive in E.
  - rewrite <- Hws. apply lstrip_head_ok.
Qed.

Lemma trimmed_strip s : trimmed s -> Py.strip s = s.
Proof.
  intros [H1 H2]. unfold Py.strip, Py.rstrip.
  rewrite (lstrip_id s H1), (lstrip_id _ H2). apply rev_involutive.
Qed.

(** Every line boundary is whitespace. *)
Lemma linebreak_isspace c : Py.is_linebreak c = true -> Py.isspace c = true.
Proof.
  unfold Py.is_linebreak, Py.isspace. cbv zeta.
  generalize (N_of_ascii c). intros n.
  rewrite !orb_true_iff, !andb_true_iff, !N.leb_le, !N.eqb_eq. lia.
Qed.

Lemma no_break_infix a b : infix_of a b -> no_break b -> no_break a.
Proof.
  intros (p & q & ->) H. unfold no_break in *.
  apply Forall_app in H as [_ H]. by apply Forall_app in H as [H _].
Qed.

(** ** Lines *)

Lemma lines_from_no_break b s : Forall no_break (Py.lines_from b s).
Proof.
  revert b. induction s as [|c s IH]; intros b; simpl; [constructor|].
  destruct (b && Ascii.eqb c Py.LF); [apply IH|].
  destruct (Py.is_linebreak c) eqn:E.
  - constructor; [constructor | apply IH].
  - specialize (IH false). destruct (Py.lines_from false s) as [|l ls].
    + repeat constructor. exact E.
    + inversion IH; subst. constructor; [by constructor | done].
Qed.

(** The first line of a text starts at its first character. *)
Lemma lines_from_first_prefix s l0 ls :
  Py.lines_from false s = l0 :: ls -> exists q, s = l0 ++ q.
Proof.
  revert l0 ls. induction s as [|d s IH]; intros l0 ls; simpl; [done|].
  destruct (Py.is_linebreak d).
  - intros [= <- _]. by exists (d :: s).
  - destruct (Py.lines_from false s) as [|l1 ls1].
    + intros [= <- _]. by exists s.
    + intros [= <- _]. destruct (IH l1 ls1 eq_refl) as [q ->]. by exists q.
Qed.

Lemma lines_from_infix b s l : In l (Py.lines_from b s) -> infix_of l s.
Proof.
  revert b l. induction s as [|c s IH]; intros b l; simpl; [done|].
  destruct (b && Ascii.eqb c Py.LF).
  { intros H. apply infix_of_cons. eauto. }
  destruct (Py.is_linebreak c).
  { intros [<- | H]; [by exists [], (c :: s) | apply infix_of_cons; eauto]. }
  pose proof (IH false) as IH'.
  destruct (Py.lines_from false s) as [|l0 ls] eqn:E.
  - intros [<- | []]. by exists [], s.
  - intros [<- | H]; [|apply infix_of_cons, IH'; by right].
    destruct (lines_from_first_prefix _ _ _ E) as [q ->]. by exists [], q.
Qed.

(** A text that starts with a line free of boundaries, closed by LF. *)
Lemma splitlines_first l rest :
  no_break l -> Py.splitlines (l ++ Py.LF :: rest) = l :: Py.splitlines rest.
Proof.
  unfold Py.splitlines. induction 1 as [|c l Hc Hl IH]; simpl.
  - reflexivity.
  - rewrite Hc, IH. reflexivity.
Qed.

Lemma splitlines_single l : l <> [] -> no_break l -> Py.splitlines l = [l].
Proof.
  unfold Py.splitlines. intros Hne H. induction H as [|c l Hc Hl IH]; [done|].
  simpl. rewrite Hc. destruct l as [|d l]; [done|].
  rewrite IH; [done | discriminate].
Qed.

Lemma truthy_ne (s : str) : truthy s = true <-> s <> [].
Proof. destruct s; simpl; split; congruence. Qed.

Lemma join_cons sep l ls :
  Py.join sep (l :: ls) = match ls with [] => l | _ :: _ => l ++ sep ++ Py.join sep ls end.
Proof. reflexivity. Qed.

Lemma join_trimmed ls :
  ls <> [] -> Forall (fun l => l <> [] /\ trimmed l) ls ->
  Py.join newline ls <> [] /\ trimmed (Py.join newline ls).
Proof.
  induction ls as [|l ls IH]; [done|]. intros _ H.
  inversion H as [|? ? [Hne [Hh Ht]] Hls]; subst.
  rewrite join_cons. destruct ls as [|l2 ls]; [done|].
  destruct IH as [IHne [IHh IHt]]; [done | done |].
  split; [by destruct l|]. split.
  - by apply head_ok_app.
  - rewrite !rev_app_distr, <- app_assoc. apply head_ok_app; [|done].
    intros E. apply IHne. apply (f_equal (@rev ascii)) in E.
    by rewrite rev_involutive in E.
Qed.

Lemma first_line_join l ls :
  l <> [] -> trimmed l -> no_break l ->
  _first_non_empty_line (Py.join newline (l :: ls)) = l.
Proof.
  intros Hne Ht Hb. unfold _first_non_empty_line. rewrite join_cons.
  assert (first_truthy_stripped [l] = l) as H1.
  { simpl. rewrite (trimmed_strip l Ht). by destruct l. }
  destruct ls as [|l2 ls].
  - by rewrite splitlines_single.
  - unfold newline. simpl app. rewrite splitlines_first by done.
    simpl. rewrite (trimmed_strip l Ht). by destruct l.
Qed.

Lemma fold_keep_line lns acc :
  fold_left keep_line lns acc = acc ++ filter kept (map Py.strip lns).
Proof.
  revert acc. induction lns as [|ln lns IH]; intros acc; simpl.
  - by rewrite app_nil_r.
  - rewrite IH. unfold keep_line, kept.
    rewrite filter_cons.
    destruct (Re.match_role (Py.strip ln)); simpl; [done|].
    destruct (truthy (Py.strip ln)); simpl; [|done].
    by rewrite <- app_assoc.
Qed.

Lemma drop_transcript_lines_filter t :
  drop_transcript_lines t = filter kept (map Py.strip (Py.splitlines t)).
Proof. unfold drop_transcript_lines. by rewrite fold_keep_line. Qed.

Lemma drop_transcript_lines_good t l :
  In l (drop_transcript_lines t) -> good_line l /\ infix_of l t.
Proof.
  rewrite drop_transcript_lines_filter. intros H.
  apply list_elem_of_In, list_elem_of_filter in H as [Hk H].
  apply list_elem_of_In, in_map_iff in H as (ln & <- & Hln).
  unfold kept in Hk. apply Is_true_true, andb_true_iff in Hk as [Hm Ht].
  apply negb_true_iff in Hm. apply truthy_ne in Ht.
  assert (infix_of (Py.strip ln) ln) as Hi by apply strip_infix.
  assert (no_break ln) as Hb.
  { pose proof (lines_from_no_break false t) as HF.
    rewrite Forall_forall in HF. apply HF. by apply list_elem_of_In. }
  repeat split; try done.
  - apply strip_trimmed.
  - apply strip_trimmed.
  - by apply no_break_infix with ln.
  - apply infix_of_trans with ln; [done|]. by apply lines_from_infix with false.
Qed.
(** ** The cleaner *)

(** The examples of the specification. *)
Example echo_suppression_empty :
  clean_completion
    (py "SYSTEM: foo" ++ newline ++ py "USER: bar" ++ newline ++ py "ASSISTANT:")
  = [].
Proof. vm_compute. reflexivity. Qed.

Example echo_suppression_last :
  clean_completion (py "...ASSISTANT: first" ++ newline ++ py "ASSISTANT: second")
  = py "second".
Proof. vm_compute. reflexivity. Qed.

Example final_marker_extraction :
  clean_completion (py "some reasoning assistantfinal The answer is 42")
  = py "The answer is 42".
Proof. vm_compute. reflexivity. Qed.

Example transcript_filtering :
  clean_completion (py "USER: ignore me" ++ newline ++ py "Hello world")
  = py "Hello world".
Proof. vm_compute. reflexivity. Qed.

Example first_line_reduction :
  clean_completion (py "Line one" ++ newline ++ py "Line two") = py "Line one".
Proof. vm_compute. reflexivity. Qed.

Lemma rfind_None sep s : Py.rfind sep s = None -> Py.contains sep s = false.
Proof.
  induction s as [|c s IH]; simpl.
  - destruct (Py.startswith sep []); [discriminate | done].
  - destruct (Py.rfind sep s) as [[b a]|]; [discriminate|].
    destruct (Py.startswith sep (c :: s)); [discriminate|].
    intros _. by rewrite IH.
Qed.

Lemma rfind_Some sep s b a :
  sep <> [] -> Py.rfind sep s = Some (b, a) ->
  s = b ++ sep ++ a /\ Py.contains sep a = false.
Proof.
  intros Hsep. revert b a. induction s as [|c s IH]; intros b a; simpl.
  - destruct sep; [done | discriminate].
  - destruct (Py.rfind sep s) as [[b' a']|] eqn:E.
    + intros [= <- <-]. destruct (IH _ _ eq_refl) as [-> H]. done.
    + destruct (Py.startswith sep (c :: s)) eqn:Hs; [|discriminate].
      intros [= <- <-]. apply startswith_spec in Hs as [r Hr].
      split.
      * rewrite Hr. simpl. f_equal. by rewrite drop_app_length.
      * apply rfind_None in E. apply contains_infix with s; [|done].
        destruct sep as [|d sep]; [done|]. simpl. apply infix_of_drop.
Qed.

Lemma after_sentinel_spec t :
  infix_of (after_sentinel t) t /\ Py.contains sentinel (after_sentinel t) = false.
Proof.
  unfold after_sentinel. destruct (Py.contains sentinel t) eqn:E.
  - unfold Py.rsplit1, Py.last_part.
    destruct (Py.rfind sentinel t) as [[b a]|] eqn:Er.
    + apply rfind_Some in Er as [Ht Ha]; [|done].
      change (List.last [b; a] []) with a. split.
      * apply infix_of_trans with a; [apply strip_infix|].
        rewrite Ht, app_assoc. apply infix_of_suffix.
      * apply contains_infix with a; [apply strip_infix | done].
    + apply rfind_None in Er. congruence.
  - split; [apply infix_of_refl | done].
Qed.

Lemma startswith_ci_length p s :
  Re.startswith_ci p s = true -> length p <= length s.
Proof.
  revert s. induction p as [|x p IH]; intros [|y s]; simpl; try done; try lia.
  intros H. apply andb_true_iff in H as [_ H]. apply IH in H. lia.
Qed.

Lemma search_ci_Some p s b a :
  Re.search_ci p s = Some (b, a) ->
  exists m, s = b ++ m ++ a /\ length m = length p.
Proof.
  revert b a. induction s as [|c s IH]; intros b a; simpl.
  - destruct (Re.startswith_ci p []) eqn:E; [|discriminate].
    intros [= <- <-]. destruct p; [|discriminate]. by exists [].
  - destruct (Re.startswith_ci p (c :: s)) eqn:E.
    + intros [= <- <-]. exists (take (length p) (c :: s)). split.
      * simpl. by rewrite take_drop.
      * rewrite length_take. apply startswith_ci_length in E. lia.
    + destruct (Re.search_ci p s) as [[b' a']|]; [|discriminate].
      intros [= <- <-]. destruct (IH _ _ eq_refl) as (m & -> & Hm). by exists m.
Qed.

Lemma startswith_lower_ci p s :
  Py.lower p = p -> Py.startswith p (Py.lower s) = true -> Re.startswith_ci p s = true.
Proof.
  revert s. induction p as [|a p IH]; intros s Hp; [done|].
  destruct s as [|b s]; simpl; [done|].
  injection Hp as Ha Hp. rewrite andb_true_iff, Ascii.eqb_eq. intros [Hab H].
  apply andb_true_iff. split; [|by apply IH].
  unfold Re.char_ci. rewrite Ha, Hab. apply Ascii.eqb_refl.
Qed.

Lemma contains_lower_search p s :
  Py.lower p = p -> Py.contains p (Py.lower s) = true ->
  exists b a, Re.search_ci p s = Some (b, a).
Proof.
  intros Hp. induction s as [|c s IH]; simpl.
  - rewrite orb_false_r. intros H. apply (startswith_lower_ci p []) in H; [|done].
    rewrite H. eauto.
  - intros H. destruct (Re.startswith_ci p (c :: s)) eqn:E; [eauto|].
    apply orb_true_iff in H as [H|H].
    + apply (startswith_lower_ci p (c :: s)) in H; [congruence | done].
    + destruct (IH H) as (b & a & ->). eauto.
Qed.

Lemma after_final_marker_infix t : infix_of (after_final_marker t) t.
Proof.
  unfold after_final_marker. destruct (Py.contains _ _); [|apply infix_of_refl].
  unfold Re.split1_ci. destruct (Re.search_ci final_marker t) as [[b a]|] eqn:E.
  - apply search_ci_Some in E as (m & -> & _).
    apply infix_of_trans with a; [apply strip_infix|].
    rewrite app_assoc. apply infix_of_suffix.
  - apply infix_of_refl.
Qed.

Lemma after_final_marker_shorter t :
  Py.contains final_marker (Py.lower t) = true ->
  length (after_final_marker t) < length t.
Proof.
  intros H. unfold after_final_marker. rewrite H.
  destruct (contains_lower_search final_marker t eq_refl H) as (b & a & E).
  unfold Re.split1_ci. rewrite E.
  apply search_ci_Some in E as (m & -> & Hm).
  pose proof (infix_of_length _ _ (strip_infix a)) as Hl.
  rewrite !length_app, Hm. change (length final_marker) with 14. lia.
Qed.

Lemma clean_completion_hd text :
  clean_completion text = hd [] (cleaned_lines text).
Proof.
  unfold clean_completion. destruct text as [|c text]; [reflexivity|].
  cbv zeta. simpl negb. cbv iota. fold (cleaned_lines (c :: text)).
  pose proof (drop_transcript_lines_good
                (after_final_marker (after_sentinel (Py.strip (c :: text))))) as Hg.
  fold (cleaned_lines (c :: text)) in Hg.
  destruct (cleaned_lines (c :: text)) as [|l ls]; [reflexivity|].
  assert (Forall (fun l => l <> [] /\ trimmed l) (l :: ls)) as HF.
  { apply Forall_forall. intros x Hx. apply list_elem_of_In, Hg in Hx as [(? & ? & _) _]. done. }
  destruct (join_trimmed (l :: ls)) as [_ Ht]; [done | done |].
  rewrite (trimmed_strip _ Ht).
  destruct (Hg l) as [(Hne & Htl & Hb & _) _]; [by left|].
  rewrite first_line_join by done.
  simpl. by destruct l.
Qed.

Lemma cleaned_lines_good text l :
  In l (cleaned_lines text) ->
  good_line l /\ Py.contains sentinel l = false /\
  infix_of l (after_final_marker (after_sentinel (Py.strip text))).
Proof.
  intros H. apply drop_transcript_lines_good in H as [Hg Hi].
  split; [done|]. split; [|done].
  apply contains_infix with (after_sentinel (Py.strip text)).
  - eapply infix_of_trans; [exact Hi | apply after_final_marker_infix].
  - apply after_sentinel_spec.
Qed.

Lemma clean_completion_cases text :
  clean_completion text = [] \/
  (good_line (clean_completion text) /\
   Py.contains sentinel (clean_completion text) = false /\
   infix_of (clean_completion text)
            (after_final_marker (after_sentinel (Py.strip text)))).
Proof.
  rewrite clean_completion_hd.
  pose proof (cleaned_lines_good text) as H.
  destruct (cleaned_lines text) as [|l ls]; [by left|].
  right. apply H. by left.
Qed.

Lemma clean_good_line l :
  good_line l -> Py.contains sentinel l = false ->
  Py.contains final_marker (Py.lower l) = false ->
  clean_completion l = l.
Proof.
  intros (Hne & Ht & Hb & Hm) Hs Hf.
  rewrite clean_completion_hd. unfold cleaned_lines.
  rewrite (trimmed_strip l Ht). unfold after_sentinel. rewrite Hs.
  unfold after_final_marker. rewrite Hf.
  rewrite drop_transcript_lines_filter, splitlines_single by done.
  simpl. rewrite (trimmed_strip l Ht). rewrite filter_cons.
  unfold kept. rewrite Hm. simpl. by destruct l.
Qed.

(** ** Idempotence of the cleaner *)

(** The cleaner cuts at the first final marker only, so its output can still
    hold one. *)
Example clean_completion_two_markers :
  clean_completion (py "Plan: assistantfinal comes first. assistantfinal OK")
    = py "comes first. assistantfinal OK" /\
  clean_completion (py "comes first. assistantfinal OK") = py "OK".
Proof. split; vm_compute; reflexivity. Qed.

(** C1, as stated, fails: for the text
    [Plan: assistantfinal comes first. assistantfinal OK] the cleaner returns
    [comes first. assistantfinal OK], and cleaning that again returns [OK]. *)
Lemma clean_completion_not_idempotent :
  clean_completion
    (clean_completion (py "Plan: assistantfinal comes first. assistantfinal OK"))
  <> clean_completion (py "Plan: assistantfinal comes first. assistantfinal OK").
Proof. vm_compute. discriminate. Qed.

(** C1, amended: cleaning the cleaner's output again changes nothing exactly
    when that output holds no occurrence of [assistantfinal], in any case.  In
    particular re-cleaning is the identity on every output without the final
    marker, and it shortens every output that holds one. *)
Theorem clean_completion_idempotent_iff x :
  clean_completion (clean_completion x) = clean_completion x <->
  Py.contains final_marker (Py.lower (clean_completion x)) = false.
Proof.
  destruct (clean_completion_cases x) as [E | (Hg & Hs & _)].
  { rewrite E. simpl. done. }
  set (y := clean_completion x) in *. split.
  - intros Hid. destruct (Py.contains final_marker (Py.lower y)) eqn:Hf; [|done].
    exfalso.
    destruct Hg as (Hne & Ht & Hb & Hm).
    assert (length (clean_completion y) < length y) as Hlt; [|rewrite Hid in Hlt; lia].
    destruct (clean_completion_cases y) as [E | (_ & _ & Hi)].
    { rewrite E. destruct y; [done | simpl; lia]. }
    apply infix_of_length in Hi.
    rewrite (trimmed_strip y Ht) in Hi. unfold after_sentinel in Hi. rewrite Hs in Hi.
    pose proof (after_final_marker_shorter y Hf). lia.
  - intros Hf. by apply clean_good_line.
Qed.

(** ** The transcript-line filter *)

(** C2, as stated, fails: the line [user: hi] carries the role label in lower
    case and the filter keeps it. *)
Lemma lowercase_role_line_kept : ~ filter_drops_ci (py "user: hi").
Proof.
  intros H. apply (H (py "user: hi")).
  - vm_compute. by left.
  - vm_compute. reflexivity.
  - vm_compute. by left.
Qed.

(** Every line the pattern of the filter matches carries a role label in the
    specification's case-blind sense. *)
Lemma startswith_ci_relabel p p' s :
  Py.lower p' = Py.lower p -> Py.startswith p s = true ->
  Re.startswith_ci p' s = true.
Proof.
  revert p' s. induction p as [|a p IH]; intros [|a' p'] s; simpl; try done.
  destruct s as [|b s]; [done|].
  intros [= Ha Hp]. rewrite andb_true_iff, Ascii.eqb_eq. intros [-> H].
  apply andb_true_iff. split; [|by apply IH].
  unfold Re.char_ci. rewrite Ha. apply Ascii.eqb_refl.
Qed.

Lemma role_labels_covered lab :
  In lab Re.role_labels ->
  exists lab', In lab' spec_role_labels /\ Py.lower lab' = Py.lower lab /\
               length lab' = length lab.
Proof.
  intros [<-|[<-|[<-|[<-|[<-|[<-|[]]]]]]].
  - exists (py "USER"). split; [by left | done].
  - exists (py "USER"). split; [by left | done].
  - exists (py "SYSTEM"). split; [right; by left | done].
  - exists (py "SYSTEM"). split; [right; by left | done].
  - exists (py "ASSISTANT"). split; [right; right; by left | done].
  - exists (py "ASSISTANT"). split; [right; right; by left | done].
Qed.

Lemma match_role_prefixed_ci s :
  Re.match_role s = true -> role_prefixed_ci s = true.
Proof.
  unfold Re.match_role, role_prefixed_ci. rewrite !existsb_exists.
  intros (lab & Hin & H). apply andb_true_iff in H as [H W].
  destruct (role_labels_covered lab Hin) as (lab' & Hin' & Hl & Hlen).
  exists lab'. split; [done|]. rewrite Hlen.
  apply andb_true_iff. split; [by apply startswith_ci_relabel with lab | done].
Qed.

(** C2, amended: in the filtering step every line whose trimmed form starts
    with one of the labels spelled [USER], [User], [SYSTEM], [System],
    [ASSISTANT] or [Assistant], followed by optional whitespace and a colon,
    is absent from the lines kept, for every text. *)
Theorem role_lines_dropped t ln :
  In ln (Py.splitlines t) ->
  Re.match_role (Py.strip ln) = true ->
  ~ In (Py.strip ln) (drop_transcript_lines t).
Proof.
  intros _ Hm Hin. apply drop_transcript_lines_good in Hin as [(_ & _ & _ & Hn) _].
  congruence.
Qed.

Lemma role_lines_dropped_witness :
  In (py "USER: ignore me")
     (Py.splitlines (py "USER: ignore me" ++ newline ++ py "Hello world")) /\
  Re.match_role (Py.strip (py "USER: ignore me")) = true /\
  ~ In (Py.strip (py "USER: ignore me"))
       (drop_transcript_lines (py "USER: ignore me" ++ newline ++ py "Hello world")).
Proof.
  split; [vm_compute; by left|]. split; [vm_compute; reflexivity|].
  apply (role_lines_dropped _ (py "USER: ignore me")).
  - vm_compute. by left.
  - vm_compute. reflexivity.
Defined.

(** ** The invariant of the cleaner's output *)

(** C6, as stated, fails: the cleaner returns the text [assistant: OK]
    unchanged, a line that carries a role label in lower case. *)
Lemma lowercase_role_line_in_output : ~ output_clean_ci (py "assistant: OK").
Proof.
  intros [_ H].
  assert (Py.splitlines (clean_completion (py "assistant: OK"))
          = [py "assistant: OK"]) as E by (vm_compute; reflexivity).
  rewrite E in H. apply Forall_inv in H. vm_compute in H. discriminate H.
Qed.

(** C6, amended: for every text the cleaner's output holds no occurrence of
    the sentinel [ASSISTANT:], and no line of it, once trimmed, starts with a
    label spelled [USER], [User], [SYSTEM], [System], [ASSISTANT] or
    [Assistant] followed by optional whitespace and a colon. *)
Theorem clean_completion_output x :
  Py.contains sentinel (clean_completion x) = false /\
  Forall (fun ln => Re.match_role (Py.strip ln) = false)
         (Py.splitlines (clean_completion x)).
Proof.
  destruct (clean_completion_cases x) as [-> | ((Hne & Ht & Hb & Hm) & Hs & _)].
  - split; [reflexivity | constructor].
  - split; [exact Hs|]. rewrite splitlines_single by done.
    constructor; [|constructor]. by rewrite (trimmed_strip _ Ht).
Qed.
(** ** The prompt builder *)

Lemma prompt_tag r :
  Py.upper (if bool_decide (Py.lower (Py.strip r) ∈ known_roles)
            then Py.lower (Py.strip r) else py "user") = role_tag r.
Proof.
  unfold role_tag, eq_ci. cbv zeta.
  change (Py.lower (py "system")) with (py "system").
  change (Py.lower (py "user")) with (py "user").
  change (Py.lower (py "assistant")) with (py "assistant").
  change (Py.lower (py "tool")) with (py "tool").
  generalize (Py.lower (Py.strip r)). intros x. unfold known_roles.
  destruct (decide (x = py "system")) as [->|H1]; [reflexivity|].
  rewrite (bool_decide_eq_false_2 _ H1).
  destruct (decide (x = py "user")) as [->|H2]; [reflexivity|].
  rewrite (bool_decide_eq_false_2 _ H2).
  destruct (decide (x = py "assistant")) as [->|H3]; [reflexivity|].
  rewrite (bool_decide_eq_false_2 _ H3).
  destruct (decide (x = py "tool")) as [->|H4]; [reflexivity|].
  rewrite (bool_decide_eq_false_2 _ H4).
  rewrite bool_decide_eq_false_2; [reflexivity|].
  rewrite !not_elem_of_cons, elem_of_nil. tauto.
Qed.

Lemma fold_prompt_step ms acc :
  fold_left prompt_step ms acc = acc ++ map turn_line ms.
Proof.
  revert acc. induction ms as [|m ms IH]; intros acc; simpl.
  - by rewrite app_nil_r.
  - rewrite IH. unfold prompt_step at 1. rewrite prompt_tag.
    by rewrite <- app_assoc.
Qed.

Lemma join_snoc ls s :
  Py.join newline (ls ++ [s]) = concat (map (fun l => l ++ newline) ls) ++ s.
Proof.
  induction ls as [|l ls IH]; [reflexivity|].
  change ((l :: ls) ++ [s]) with (l :: (ls ++ [s])).
  rewrite join_cons, IH. simpl. rewrite <- !app_assoc.
  by destruct ls.
Qed.

(** C9, as stated, fails: the role [ system], with a space before it, is not
    one of the four names under case-blind matching, so the claim's words give
    the line [USER: Be brief]; the code removes the space first and builds
    [SYSTEM: Be brief]. *)
Lemma padded_role_is_recognised :
  messages_to_prompt [ {| role := py " system"; content := py "Be brief" |} ]
    = py "SYSTEM: Be brief" ++ newline ++ py "ASSISTANT:" /\
  prompt_as_specified [ {| role := py " system"; content := py "Be brief" |} ]
    = py "USER: Be brief" ++ newline ++ py "ASSISTANT:" /\
  messages_to_prompt [ {| role := py " system"; content := py "Be brief" |} ]
  <> prompt_as_specified
       [ {| role := py " system"; content := py "Be brief" |} ].
Proof.
  split; [vm_compute; reflexivity|]. split; [vm_compute; reflexivity|].
  vm_compute. discriminate.
Qed.

(** C9, amended: the prompt is, for each turn in order, the line made of the
    role tag (the role, once the whitespace around it is removed, matched
    without regard to case against the four role names, [user] when it is none
    of them, in upper case), a colon, a space and the content, each such line
    followed by one newline, and then the sentinel [ASSISTANT:] with nothing
    after it; that is, the turn lines and the sentinel joined by single
    newlines.  The turns [user: Hi], [assistant: Hello] give [USER: Hi],
    [ASSISTANT: Hello], [ASSISTANT:]; the roles [SYSTEM], [ User ],
    [aSSISTANT], [TooL] and [bot] give the tags [SYSTEM], [USER],
    [ASSISTANT], [TOOL] and [USER]. *)
Theorem prompt_construction ms :
  messages_to_prompt ms =
    concat (map (fun m => turn_line m ++ newline) ms) ++ sentinel /\
  messages_to_prompt ms = Py.join newline (map turn_line ms ++ [sentinel]) /\
  messages_to_prompt [ {| role := py "user"; content := py "Hi" |};
                       {| role := py "assistant"; content := py "Hello" |} ]
    = py "USER: Hi" ++ newline ++ py "ASSISTANT: Hello" ++ newline
      ++ py "ASSISTANT:" /\
  messages_to_prompt [ {| role := py "SYSTEM"; content := py "Be brief" |};
                       {| role := py " User "; content := py "Hi" |};
                       {| role := py "aSSISTANT"; content := py "Hello" |};
                       {| role := py "TooL"; content := py "42" |};
                       {| role := py "bot"; content := py "?" |} ]
    = py "SYSTEM: Be brief" ++ newline ++ py "USER: Hi" ++ newline
      ++ py "ASSISTANT: Hello" ++ newline ++ py "TOOL: 42" ++ newline
      ++ py "USER: ?" ++ newline ++ py "ASSISTANT:".
Proof.
  assert (messages_to_prompt ms
          = Py.join newline (map turn_line ms ++ [sentinel])) as E.
  { unfold messages_to_prompt. by rewrite fold_prompt_step. }
  split; [|split; [exact E | split; vm_compute; reflexivity]].
  rewrite E, join_snoc, map_map. reflexivity.
Qed.
(** ** The handler *)

(** Unfolds the sequencing of the handler's steps. *)
Ltac run_steps :=
  unfold mbind, M_bind, config, now, post, lift; simpl.

Lemma chat_completions_stream req en st :
  stream_on req = true ->
  chat_completions req en st =
    (Raises (HTTPException 400
       (DetailStr (py "stream=true not supported in this minimal adapter yet"))), st).
Proof. intros H. unfold chat_completions. by rewrite H. Qed.

Lemma chat_completions_transport req en st e :
  stream_on req = false ->
  the_call req en = inl e ->
  chat_completions req en st = (Raises e, after_call req en st 1).
Proof.
  intros Hs Hp. unfold chat_completions. rewrite Hs.
  run_steps.
  unfold the_call in Hp. rewrite Hp. reflexivity.
Qed.

Lemma chat_completions_status req en st r :
  stream_on req = false ->
  the_call req en = inr r ->
  status_code r <> 200%Z ->
  chat_completions req en st =
    (Raises (HTTPException 502
       (DetailDict {[ "triton_status" := JInt (status_code r);
                      "triton_body" := JStr (text r) ]})),
     after_call req en st 2).
Proof.
  intros Hs Hp Hc. unfold chat_completions. rewrite Hs.
  run_steps.
  unfold the_call in Hp. rewrite Hp. simpl.
  apply Z.eqb_neq in Hc. rewrite Hc. reflexivity.
Qed.

Lemma chat_completions_returns req en st resp st' :
  chat_completions req en st = (Returns resp, st') ->
  exists r data raw_text text ms created,
    stream_on req = false /\
    the_call req en = inr r /\
    status_code r = 200%Z /\
    json_of r = inr data /\
    get_text_output data = inr raw_text /\
    clean_completion_dyn raw_text = inr text /\
    id_stamp en st = inr ms /\
    created_stamp en st = inr created /\
    resp = completion req (TRITON_MODEL en) text ms created (latency en st) /\
    st' = after_call req en st 4.
Proof.
  unfold chat_completions. destruct (stream_on req) eqn:Hs; [discriminate|].
  unfold id_stamp, created_stamp. run_steps.
  fold (the_call req en).
  destruct (the_call req en) as [e|r]; [discriminate|].
  destruct (status_code r =? 200)%Z eqn:Hc; simpl; [|discriminate].
  destruct (json_of r) as [e|data] eqn:Hd; [discriminate|].
  destruct (get_text_output data) as [e|raw_text] eqn:Hr; [discriminate|].
  destruct (clean_completion_dyn raw_text) as [e|text] eqn:Ht; [discriminate|].
  destruct (int_of_float _) as [e|ms] eqn:Hm; [discriminate|].
  destruct (int_of_float (time_time _ _)) as [e|created] eqn:Hcr; [discriminate|].
  intros [= <- <-]. apply Z.eqb_eq in Hc.
  by exists r, data, raw_text, text, ms, created.
Qed.

(** A run returns as soon as every step of it does. *)
Lemma chat_completions_success req en st r data raw_text text ms created :
  stream_on req = false ->
  the_call req en = inr r ->
  status_code r = 200%Z ->
  json_of r = inr data ->
  get_text_output data = inr raw_text ->
  clean_completion_dyn raw_text = inr text ->
  id_stamp en st = inr ms ->
  created_stamp en st = inr created ->
  chat_completions req en st =
    (Returns (completion req (TRITON_MODEL en) text ms created (latency en st)),
     after_call req en st 4).
Proof.
  intros Hs Hp Hc Hd Hr Ht Hm Hcr. unfold chat_completions. rewrite Hs.
  run_steps.
  unfold the_call in Hp. rewrite Hp. simpl.
  apply Z.eqb_eq in Hc. rewrite Hc. simpl.
  rewrite Hd. simpl. rewrite Hr. simpl. rewrite Ht. simpl.
  unfold id_stamp in Hm. unfold created_stamp in Hcr.
  rewrite Hm. simpl. rewrite Hcr. reflexivity.
Qed.

(** The run of the sample request against the sample reply. *)
Lemma sample_run mo sp clock st ms created :
  id_stamp (env_of clock (inr ok_reply)) st = inr ms ->
  created_stamp (env_of clock (inr ok_reply)) st = inr created ->
  chat_completions (request_of mo sp None) (env_of clock (inr ok_reply)) st =
    (Returns (completion (request_of mo sp None) (py "vllm_model") (py "OK")
                         ms created (latency (env_of clock (inr ok_reply)) st)),
     after_call (request_of mo sp None) (env_of clock (inr ok_reply)) st 4).
Proof.
  intros Hm Hc.
  apply (chat_completions_success
           (request_of mo sp None) (env_of clock (inr ok_reply)) st ok_reply
           (JDict {[ "text_output" := JStr (py "USER: Say only: OK ASSISTANT: OK") ]})
           (JStr (py "USER: Say only: OK ASSISTANT: OK"))
           (py "OK") ms created).
  - reflexivity.
  - reflexivity.
  - reflexivity.
  - reflexivity.
  - reflexivity.
  - vm_compute. reflexivity.
  - exact Hm.
  - exact Hc.
Qed.

(** Past the stream check a run performs exactly one outbound call, whatever
    its outcome: the payload of the request, posted to the generate URL with
    a timeout of 300 seconds. *)
Lemma chat_completions_sends req en st :
  stream_on req = false ->
  calls (snd (chat_completions req en st)) =
    calls st ++ [{| url := generate_url en; body := JDict (payload req);
                    timeout := 300 |}].
Proof.
  intros Hs. unfold chat_completions. rewrite Hs. run_steps.
  destruct (requests_post en _ _ _) as [e|r]; [reflexivity|].
  destruct (status_code r =? 200)%Z; simpl; [|reflexivity].
  destruct (json_of r) as [e|data]; [reflexivity|].
  destruct (get_text_output data) as [e|raw_text]; [reflexivity|].
  destruct (clean_completion_dyn raw_text) as [e|text]; [reflexivity|].
  destruct (int_of_float _) as [e|ms]; [reflexivity|].
  destruct (int_of_float (time_time _ _)) as [e|created]; reflexivity.
Qed.

(** ** Stream rejection *)

(** C8: a request with [stream] set to true fails with the error of status
    400, and the run leaves the state as it was: no outbound call is logged
    and the clock is not even read. *)
Theorem stream_rejected req en st :
  stream req = Some true ->
  chat_completions req en st =
    (Raises (HTTPException 400
       (DetailStr (py "stream=true not supported in this minimal adapter yet"))),
     st)
  /\ calls (snd (chat_completions req en st)) = calls st.
Proof.
  intros H. rewrite chat_completions_stream; [done|].
  unfold stream_on. by rewrite H.
Qed.

Lemma stream_rejected_witness :
  stream (request_of None None (Some true)) = Some true /\
  (chat_completions (request_of None None (Some true))
                    (env_of running_clock (inr ok_reply)) st0 =
     (Raises (HTTPException 400
        (DetailStr (py "stream=true not supported in this minimal adapter yet"))),
      st0)
   /\ calls (snd (chat_completions (request_of None None (Some true))
                                   (env_of running_clock (inr ok_reply)) st0))
      = calls st0).
Proof.
  split; [reflexivity|].
  apply (stream_rejected (request_of None None (Some true))
                         (env_of running_clock (inr ok_reply)) st0).
  reflexivity.
Defined.

(** ** Transport failures *)

(** C3, as stated, fails: when the outbound call raises on a read timeout,
    the handler raises that same exception, not the error of status 502. *)
Lemma timeout_is_not_gateway_error :
  stream_on (request_of None None None) = false /\
  the_call (request_of None None None)
           (env_of running_clock (inl read_timeout)) = inl read_timeout /\
  ~ exists d,
      fst (chat_completions (request_of None None None)
                            (env_of running_clock (inl read_timeout)) st0)
      = Raises (HTTPException 502 d).
Proof.
  split; [reflexivity|]. split; [reflexivity|]. intros [d H].
  rewrite (chat_completions_transport _ _ _ read_timeout) in H by reflexivity.
  discriminate H.
Qed.

(** C3, amended: when the outbound call raises (connection failure or
    timeout), the handler does not translate the failure: the exception of the
    call leaves the handler as it is, after the one outbound call has been
    issued. *)
Theorem transport_failure_propagates req en st e :
  stream_on req = false ->
  requests_post en (generate_url en) (JDict (payload req)) 300 = inl e ->
  fst (chat_completions req en st) = Raises e /\
  calls (snd (chat_completions req en st)) =
    calls st ++ [{| url := generate_url en; body := JDict (payload req);
                    timeout := 300 |}].
Proof.
  intros Hs Hp. by rewrite (chat_completions_transport req en st e).
Qed.

Lemma transport_failure_propagates_witness :
  stream_on (request_of None None None) = false /\
  requests_post (env_of running_clock (inl read_timeout))
    (generate_url (env_of running_clock (inl read_timeout)))
    (JDict (payload (request_of None None None))) 300 = inl read_timeout /\
  fst (chat_completions (request_of None None None)
                        (env_of running_clock (inl read_timeout)) st0)
    = Raises read_timeout.
Proof.
  split; [reflexivity|]. split; [reflexivity|].
  apply (transport_failure_propagates (request_of None None None)
           (env_of running_clock (inl read_timeout)) st0 read_timeout);
    reflexivity.
Defined.

(** ** Stop normalization and defaults *)

Lemma params_stop req :
  params req !! "stop" =
    match stop_val req with
    | Some s => if truthy s then Some (JStr s) else None
    | None => None
    end.
Proof.
  unfold params. destruct (stop_val req) as [s|]; [destruct (truthy s)|].
  - apply lookup_insert_eq.
  - reflexivity.
  - reflexivity.
Qed.

Lemma params_temperature req :
  params req !! "temperature" =
    Some (JFloat (match temperature req with Some x => x | None => 0%float end)).
Proof.
  unfold params. destruct (stop_val req) as [s|]; [destruct (truthy s)|].
  - rewrite lookup_insert_ne by done. reflexivity.
  - reflexivity.
  - reflexivity.
Qed.

Lemma params_max_tokens req :
  params req !! "max_tokens" =
    Some (JInt (match max_tokens req with Some n => n | None => 256%Z end)).
Proof.
  unfold params. destruct (stop_val req) as [s|]; [destruct (truthy s)|].
  - rewrite lookup_insert_ne by done. reflexivity.
  - reflexivity.
  - reflexivity.
Qed.





(** ** The response *)

Lemma completion_id req bm text ms created dt :
  completion req bm text ms created dt !! "id" =
    Some (JStr (py "chatcmpl-adapter-" ++ str_of_int ms)).
Proof. reflexivity. Qed.

Lemma completion_usage req bm text ms created dt :
  completion req bm text ms created dt !! "usage" =
    Some (JDict {[ "prompt_tokens" := JNull;
                   "completion_tokens" := JNull;
                   "total_tokens" := JNull;
                   "triton_latency_s" := JFloat dt ]}).
Proof. reflexivity. Qed.

Lemma py_inj s1 s2 : py s1 = py s2 -> s1 = s2.
Proof.
  intros H. apply (f_equal string_of_list_ascii) in H.
  unfold py in H. by rewrite !string_of_list_ascii_of_string in H.
Qed.

Lemma str_of_int_inj m n : str_of_int m = str_of_int n -> m = n.
Proof. intros H. apply py_inj in H. by apply pretty_Z_inj in H. Qed.

Lemma completion_model req bm text ms created dt :
  completion req bm text ms created dt !! "model" =
    Some (JStr (match model req with
                | Some m => if truthy m then m else bm
                | None => bm
                end)).
Proof. reflexivity. Qed.

(** The examples of the specification on the handler: a reply of status 500
    with body [oops] is passed on inside the error of status 502, and a
    request without a model is answered under the configured model name. *)
Example backend_failure_passthrough :
  fst (chat_completions (request_of None None None)
         (env_of running_clock
            (inr {| status_code := 500; text := py "oops"; json_body := None |}))
         st0)
  = Raises (HTTPException 502
      (DetailDict {[ "triton_status" := JInt 500;
                     "triton_body" := JStr (py "oops") ]})).
Proof.
  rewrite (chat_completions_status _ _ _
             {| status_code := 500; text := py "oops"; json_body := None |});
    try reflexivity.
  discriminate.
Qed.

Example model_defaulting ms created dt :
  completion (request_of None None None) (py "vllm_model") (py "OK")
             ms created dt !! "model"
  = Some (JStr (py "vllm_model")).
Proof. reflexivity. Qed.







(** * Further properties *)

(** ** Whitespace around a text *)

Lemma lstrip_blank ws s : blank ws -> Py.lstrip (ws ++ s) = Py.lstrip s.
Proof. induction 1 as [|c ws Hc _ IH]; simpl; [done|]. by rewrite Hc. Qed.

Lemma lstrip_decompose s : exists ws, s = ws ++ Py.lstrip s /\ blank ws.
Proof.
  induction s as [|c s (ws & IH & Hws)]; simpl.
  - exists []. split; [done | constructor].
  - destruct (Py.isspace c) eqn:E.
    + exists (c :: ws). split; [simpl; by f_equal | by constructor].
    + exists []. split; [done | constructor].
Qed.

Lemma rstrip_decompose s :
  exists ws, s = Py.rstrip s ++ ws /\ blank ws /\ head_ok (rev (Py.rstrip s)).
Proof.
  unfold Py.rstrip. destruct (lstrip_decompose (rev s)) as (ws & E & Hws).
  exists (rev ws). rewrite rev_involutive. repeat split.
  - rewrite <- rev_app_distr, <- E. by rewrite rev_involutive.
  - by apply List.Forall_rev.
  - apply lstrip_head_ok.
Qed.

Lemma blank_rev ws : blank ws -> blank (rev ws).
Proof. apply List.Forall_rev. Qed.

(** A trimmed text between two runs of whitespace is what [strip] returns. *)
Lemma strip_sandwich ws1 m ws2 :
  blank ws1 -> blank ws2 -> trimmed m -> Py.strip (ws1 ++ m ++ ws2) = m.
Proof.
  intros H1 H2 [Hh Ht]. unfold Py.strip, Py.rstrip.
  rewrite lstrip_blank by done.
  destruct m as [|c m].
  - simpl. rewrite <- (app_nil_r ws2), lstrip_blank by done. reflexivity.
  - rewrite (lstrip_id ((c :: m) ++ ws2)) by exact Hh.
    rewrite rev_app_distr, lstrip_blank by (by apply blank_rev).
    rewrite (lstrip_id _ Ht). apply rev_involutive.
Qed.

Lemma strip_decompose s :
  exists ws1 ws2, s = ws1 ++ Py.strip s ++ ws2 /\ blank ws1 /\ blank ws2.
Proof.
  destruct (lstrip_decompose s) as (ws1 & E1 & H1).
  destruct (rstrip_decompose (Py.lstrip s)) as (ws2 & E2 & H2 & _).
  exists ws1, ws2. unfold Py.strip. by rewrite <- E2.
Qed.

Lemma strip_blank s : Py.strip s = [] <-> blank s.
Proof.
  split.
  - intros E. destruct (strip_decompose s) as (ws1 & ws2 & Hs & H1 & H2).
    rewrite E in Hs. rewrite Hs. simpl. unfold blank in *. by apply Forall_app.
  - intros H. rewrite <- (app_nil_r s). change [] with ([] ++ @nil ascii) at 1.
    apply (strip_sandwich s [] []); [done | constructor | done].
Qed.

(** Whitespace at the end of a text does not change what [strip] returns. *)
Lemma strip_rstrip s : Py.strip (Py.rstrip s) = Py.strip s.
Proof.
  destruct (rstrip_decompose s) as (ws & E & Hws & _).
  destruct (strip_decompose (Py.rstrip s)) as (w1 & w2 & E' & H1 & H2).
  rewrite E at 2. rewrite E' at 2. rewrite <- !app_assoc.
  symmetry. apply strip_sandwich; [done | | apply strip_trimmed].
  unfold blank in *. by apply Forall_app.
Qed.

(** A text with a non-whitespace core [x]: the whitespace is stripped from
    the two ends up to that core. *)
Lemma strip_around p x a :
  x <> [] -> trimmed x ->
  Py.strip (p ++ x ++ a) = Py.lstrip p ++ x ++ Py.rstrip a.
Proof.
  intros Hx [Hh Ht].
  destruct (lstrip_decompose p) as (ws1 & Ep & H1).
  destruct (rstrip_decompose a) as (ws2 & Ea & H2 & Hr).
  rewrite Ep at 1. rewrite Ea at 1.
  replace ((ws1 ++ Py.lstrip p) ++ x ++ Py.rstrip a ++ ws2)
    with (ws1 ++ (Py.lstrip p ++ x ++ Py.rstrip a) ++ ws2)
    by (by rewrite <- !app_assoc).
  apply strip_sandwich; [done | done |]. split.
  - destruct (Py.lstrip p) eqn:E.
    + simpl. by apply (head_ok_app x).
    + rewrite <- E. apply head_ok_app; [by rewrite E | apply lstrip_head_ok].
  - rewrite !rev_app_distr, <- app_assoc.
    destruct (rev (Py.rstrip a)) eqn:E.
    + simpl. apply (head_ok_app (rev x)); [|done].
      intros E'. apply Hx. apply (f_equal (@rev ascii)) in E'.
      by rewrite rev_involutive in E'.
    + exact Hr.
Qed.

(** ** Echo suppression *)

Lemma sentinel_trimmed : trimmed sentinel.
Proof. split; reflexivity. Qed.

(** No occurrence of the sentinel starts inside the sentinel and runs past
    its end. *)
Lemma sentinel_tail_free a :
  Py.contains sentinel a = false ->
  Py.contains sentinel (drop 1 sentinel ++ a) = false.
Proof.
  intros H. unfold sentinel, py in *. simpl in *.
  destruct a as [|c a]; simpl in *; [reflexivity|].
  rewrite H. reflexivity.
Qed.

Lemma rfind_last q a :
  Py.contains sentinel a = false ->
  Py.rfind sentinel (q ++ sentinel ++ a) = Some (q, a).
Proof.
  intros H. induction q as [|c q IH].
  - assert (Py.rfind sentinel (drop 1 sentinel ++ a) = None) as E.
    { destruct (Py.rfind sentinel (drop 1 sentinel ++ a)) as [[b r]|] eqn:E;
        [|done].
      apply rfind_Some in E as [E _]; [|done].
      apply sentinel_tail_free in H.
      assert (Py.contains sentinel (drop 1 sentinel ++ a) = true) as H'.
      { apply contains_spec. rewrite E. by exists b, r. }
      congruence. }
    change ([] ++ sentinel ++ a) with (ascii_of_nat 65 :: drop 1 sentinel ++ a).
    cbn [Py.rfind]. rewrite E.
    change (ascii_of_nat 65 :: drop 1 sentinel ++ a) with (sentinel ++ a).
    assert (Py.startswith sentinel (sentinel ++ a) = true) as ->
      by (apply startswith_spec; eauto).
    by rewrite drop_app_length.
  - change ((c :: q) ++ sentinel ++ a) with (c :: (q ++ sentinel ++ a)).
    cbn [Py.rfind]. by rewrite IH.
Qed.

Lemma after_sentinel_echo p a :
  Py.contains sentinel a = false ->
  after_sentinel (Py.strip (p ++ sentinel ++ a)) = Py.strip a.
Proof.
  intros H. rewrite strip_around by (done || apply sentinel_trimmed).
  assert (Py.contains sentinel (Py.rstrip a) = false) as Hr.
  { destruct (rstrip_decompose a) as (ws & E & _).
    apply contains_infix with a; [|done]. rewrite E at 2. apply infix_of_prefix. }
  unfold after_sentinel.
  assert (Py.contains sentinel (Py.lstrip p ++ sentinel ++ Py.rstrip a) = true)
    as -> by (apply contains_spec; by exists (Py.lstrip p), (Py.rstrip a)).
  unfold Py.rsplit1. rewrite rfind_last by done.
  change (Py.last_part [Py.lstrip p; Py.rstrip a]) with (Py.rstrip a).
  apply strip_rstrip.
Qed.

Lemma after_sentinel_id t : Py.contains sentinel t = false -> after_sentinel t = t.
Proof. intros H. unfold after_sentinel. by rewrite H. Qed.

(** Everything up to a sentinel after which no other sentinel comes is
    discarded. *)
Lemma clean_completion_echo_last p a :
  Py.contains sentinel a = false ->
  clean_completion (p ++ sentinel ++ a) = clean_completion a.
Proof.
  intros H. rewrite !clean_completion_hd. unfold cleaned_lines.
  rewrite after_sentinel_echo by done.
  rewrite (after_sentinel_id (Py.strip a)); [done|].
  apply contains_infix with a; [apply strip_infix | done].
Qed.

Lemma clean_completion_echo_any p a :
  clean_completion (p ++ sentinel ++ a) = clean_completion a.
Proof.
  destruct (Py.contains sentinel a) eqn:H;
    [|by apply clean_completion_echo_last].
  destruct (Py.rfind sentinel a) as [[b r]|] eqn:E.
  - apply rfind_Some in E as [-> Hr]; [|done].
    rewrite (clean_completion_echo_last b r Hr).
    replace (p ++ sentinel ++ b ++ sentinel ++ r)
      with ((p ++ sentinel ++ b) ++ sentinel ++ r) by (by rewrite <- !app_assoc).
    by apply clean_completion_echo_last.
  - apply rfind_None in E. congruence.
Qed.

Lemma prompt_ends_with_sentinel ms :
  exists body, messages_to_prompt ms = body ++ sentinel.
Proof.
  unfold messages_to_prompt. rewrite fold_prompt_step. simpl.
  rewrite join_snoc. eauto.
Qed.

(** X2: whatever precedes an occurrence of the sentinel [ASSISTANT:], and the
    sentinel itself, has no effect on the result: cleaning [p ++ ASSISTANT: ++ a]
    gives what cleaning [a] gives, for all texts [p] and [a]. *)
Theorem echo_suppression p a :
  clean_completion (p ++ sentinel ++ a) = clean_completion a.
Proof. apply clean_completion_echo_any. Qed.

(** X3: a reply that starts with the prompt built by [messages_to_prompt] is
    cleaned as the reply without the prompt, and the bare prompt is cleaned to
    the empty string. *)
Theorem echoed_prompt_discarded ms a :
  clean_completion (messages_to_prompt ms ++ a) = clean_completion a /\
  clean_completion (messages_to_prompt ms) = [].
Proof.
  destruct (prompt_ends_with_sentinel ms) as [body E]. rewrite E. split.
  - rewrite <- app_assoc. apply clean_completion_echo_any.
  - rewrite <- (app_nil_r sentinel), clean_completion_echo_any. reflexivity.
Qed.

(** ** The first non-empty line *)

Lemma first_truthy_stripped_nil lns :
  first_truthy_stripped lns = [] <-> Forall blank lns.
Proof.
  induction lns as [|ln lns IH]; simpl.
  - split; [constructor | done].
  - destruct (Py.strip ln) as [|c r] eqn:E; simpl.
    + rewrite IH. apply strip_blank in E. split.
      * by constructor.
      * by inversion 1.
    + split; [done|]. inversion 1 as [|? ? Hb _]; subst.
      apply strip_blank in Hb. congruence.
Qed.

Lemma first_truthy_stripped_in lns :
  first_truthy_stripped lns <> [] ->
  exists ln, In ln lns /\ first_truthy_stripped lns = Py.strip ln.
Proof.
  induction lns as [|ln lns IH]; simpl; [done|].
  destruct (Py.strip ln) as [|c r] eqn:E; simpl.
  - intros H. destruct (IH H) as (l & Hl & El). exists l. split; [by right | done].
  - intros _. exists ln. split; [by left | done].
Qed.

(** Every character of a text is a line boundary or sits on one of its
    lines, so a text whose lines are blank is blank. *)
Lemma lines_from_blank b s : Forall blank (Py.lines_from b s) -> blank s.
Proof.
  revert b. induction s as [|c s IH]; intros b; simpl; [constructor|].
  destruct (b && Ascii.eqb c Py.LF) eqn:Eb.
  { intros H. constructor; [|by apply IH with false].
    apply andb_true_iff in Eb as [_ Eb]. apply Ascii.eqb_eq in Eb.
    rewrite Eb. reflexivity. }
  destruct (Py.is_linebreak c) eqn:El.
  { inversion 1; subst. constructor; [by apply linebreak_isspace|].
    by apply IH with (Ascii.eqb c Py.CR). }
  specialize (IH false). destruct (Py.lines_from false s) as [|l ls].
  - inversion 1 as [|? ? Hc _]; subst. inversion Hc; subst.
    constructor; [done|]. apply IH. constructor.
  - inversion 1 as [|? ? Hc Hls]; subst. inversion Hc; subst.
    constructor; [done|]. apply IH. by constructor.
Qed.

Lemma blank_infix a b : infix_of a b -> blank b -> blank a.
Proof.
  intros (p & q & ->) H. unfold blank in *.
  apply Forall_app in H as [_ H]. by apply Forall_app in H as [H _].
Qed.

(** X1: [_first_non_empty_line] returns the empty string exactly when the text
    is made of whitespace only; in every case its result is a piece of the
    text without whitespace at its ends and without a line boundary. *)
Theorem first_non_empty_line_spec s :
  (_first_non_empty_line s = [] <-> blank s) /\
  trimmed (_first_non_empty_line s) /\
  no_break (_first_non_empty_line s) /\
  infix_of (_first_non_empty_line s) s.
Proof.
  unfold _first_non_empty_line, Py.splitlines. split.
  { rewrite first_truthy_stripped_nil. split; [apply lines_from_blank|].
    intros H. apply Forall_forall. intros l Hl. apply list_elem_of_In in Hl.
    apply blank_infix with s; [|done]. by apply lines_from_infix with false. }
  destruct (first_truthy_stripped (Py.lines_from false s)) as [|c r] eqn:E.
  { repeat split; [constructor | by exists [], s]. }
  destruct (first_truthy_stripped_in (Py.lines_from false s)) as (ln & Hln & El);
    [by rewrite E|].
  rewrite E in El. rewrite El.
  assert (infix_of ln s) as Hi by (by apply lines_from_infix with false).
  assert (no_break ln) as Hb.
  { pose proof (lines_from_no_break false s) as HF.
    rewrite Forall_forall in HF. apply HF. by apply list_elem_of_In. }
  split; [apply strip_trimmed|]. split.
  - apply no_break_infix with ln; [apply strip_infix | done].
  - apply infix_of_trans with ln; [apply strip_infix | done].
Qed.

(** ** The shape of the cleaner's result *)

(** X5: the result of the cleaner is the first line, trimmed, that is neither
    blank nor matched by the role pattern, among the lines of the text left by
    the echo and final-marker steps; the empty string when there is none.
    Rejoining the kept lines and taking the first non-empty one adds nothing. *)
Theorem clean_completion_first_kept text :
  clean_completion text =
    hd [] (filter kept
             (map Py.strip
                (Py.splitlines
                   (after_final_marker (after_sentinel (Py.strip text)))))).
Proof.
  rewrite clean_completion_hd. unfold cleaned_lines.
  by rewrite drop_transcript_lines_filter.
Qed.

(** X6: the cleaner only cuts: its result is a contiguous piece of its
    input, and so never longer than it. *)
Theorem clean_completion_piece x :
  infix_of (clean_completion x) x /\
  length (clean_completion x) <= length x.
Proof.
  assert (infix_of (clean_completion x) x) as H.
  { destruct (clean_completion_cases x) as [-> | (_ & _ & Hi)];
      [by exists [], x|].
    eapply infix_of_trans; [exact Hi|].
    eapply infix_of_trans; [apply after_final_marker_infix|].
    eapply infix_of_trans; [apply after_sentinel_spec | apply strip_infix]. }
  split; [exact H | by apply infix_of_length].
Qed.

(** X7: the result of the cleaner is unchanged by [strip], holds no line
    boundary, and is its own single line when it is not empty. *)
Theorem clean_completion_single_line x :
  Py.strip (clean_completion x) = clean_completion x /\
  no_break (clean_completion x) /\
  Py.splitlines (clean_completion x) =
    if truthy (clean_completion x) then [clean_completion x] else [].
Proof.
  destruct (clean_completion_cases x) as [-> | ((Hne & Ht & Hb & _) & _)].
  - repeat split. constructor.
  - split; [by apply trimmed_strip|]. split; [done|].
    rewrite splitlines_single by done. by destruct (clean_completion x).
Qed.

Lemma clean_completion_of_blank x : blank x -> clean_completion x = [].
Proof.
  intros H. rewrite clean_completion_hd. unfold cleaned_lines.
  apply strip_blank in H. rewrite H. reflexivity.
Qed.

(** X8: a text made of whitespace only is cleaned to the empty string. *)
Theorem clean_completion_blank x :
  blank x -> clean_completion x = [].
Proof. apply clean_completion_of_blank. Qed.

Lemma clean_completion_blank_witness :
  blank [ascii_of_nat 32; ascii_of_nat 9; Py.LF] /\
  clean_completion [ascii_of_nat 32; ascii_of_nat 9; Py.LF] = [].
Proof.
  split; [repeat constructor|].
  apply (clean_completion_blank [ascii_of_nat 32; ascii_of_nat 9; Py.LF]).
  repeat constructor.
Defined.

(** ** Final-marker extraction *)

(** Lower-casing leaves whitespace alone. *)
Lemma lower_char_space c : Py.isspace c = true -> Py.lower_char c = c.
Proof.
  unfold Py.isspace, Py.lower_char. cbv zeta.
  generalize (N_of_ascii c). intros n H.
  assert (((65 <=? n) && (n <=? 90)
           || (192 <=? n) && (n <=? 222) && negb (n =? 215))%N = false) as ->;
    [|reflexivity].
  apply not_true_is_false. intros E. revert H E.
  rewrite !orb_true_iff, !andb_true_iff, !N.leb_le, !N.eqb_eq. lia.
Qed.

Lemma lower_head_ok m : m <> [] -> head_ok (Py.lower m) -> head_ok m.
Proof.
  destruct m as [|c m]; [done|]. simpl. intros _ H.
  destruct (Py.isspace c) eqn:E; [|done].
  by rewrite (lower_char_space c E), E in H.
Qed.

(** A spelling of the final marker, in any case, is a non-empty word of the
    marker's length without whitespace at its ends. *)
Lemma marker_spelling m :
  Py.lower m = final_marker ->
  m <> [] /\ trimmed m /\ length m = length final_marker.
Proof.
  intros E.
  assert (length m = length final_marker) as Hl
    by (rewrite <- E; unfold Py.lower; by rewrite length_map).
  assert (m <> []) as Hne by (intros ->; discriminate Hl).
  split; [done|]. split; [|done]. split.
  - apply lower_head_ok; [done|]. by rewrite E.
  - apply lower_head_ok.
    + intros E'. apply Hne. apply (f_equal (@rev ascii)) in E'.
      by rewrite rev_involutive in E'.
    + unfold Py.lower in *. by rewrite map_rev, E.
Qed.

Lemma startswith_ci_lower p s :
  Py.lower p = p -> Re.startswith_ci p s = true ->
  Py.startswith p (Py.lower s) = true.
Proof.
  revert s. induction p as [|a p IH]; intros s Hp; [done|].
  destruct s as [|b s]; simpl; [done|].
  injection Hp as Ha Hp. rewrite !andb_true_iff, Ascii.eqb_eq.
  unfold Re.char_ci. rewrite Ascii.eqb_eq, Ha. intros [-> H].
  split; [done | by apply IH].
Qed.

Lemma startswith_shorten p x y :
  Py.startswith p (x ++ y) = true -> length p <= length x ->
  Py.startswith p x = true.
Proof.
  rewrite !startswith_spec. intros [r E] Hl.
  exists (drop (length p) x).
  rewrite <- (take_drop (length p) x) at 1. f_equal.
  rewrite <- (take_app_le x y) by done. rewrite E.
  by rewrite take_app_length.
Qed.

Lemma search_ci_unfold p s :
  Re.search_ci p s =
    if Re.startswith_ci p s then Some ([], drop (length p) s)
    else match s with
         | [] => None
         | c :: s' =>
             match Re.search_ci p s' with
             | Some (b, a) => Some (c :: b, a)
             | None => None
             end
         end.
Proof. by destruct s. Qed.

(** The leftmost match is the one no match starts before. *)
Lemma search_ci_first p b m r :
  Re.startswith_ci p (m ++ r) = true -> length m = length p ->
  (forall b1 b2, b = b1 ++ b2 -> b2 <> [] ->
                 Re.startswith_ci p (b2 ++ m ++ r) = false) ->
  Re.search_ci p (b ++ m ++ r) = Some (b, r).
Proof.
  intros Hm Hl. induction b as [|c b IH]; intros Hb.
  - rewrite search_ci_unfold. simpl app. rewrite Hm.
    by rewrite <- Hl, drop_app_length.
  - rewrite search_ci_unfold.
    rewrite (Hb [] (c :: b)) by done. cbn [app]. rewrite IH; [done|].
    intros b1 b2 -> Hne. by apply (Hb (c :: b1) b2).
Qed.

Lemma lower_app x y : Py.lower (x ++ y) = Py.lower x ++ Py.lower y.
Proof. apply map_app. Qed.

Lemma contains_lower_infix p x y :
  infix_of x y -> Py.contains p (Py.lower y) = false ->
  Py.contains p (Py.lower x) = false.
Proof.
  intros (u & v & ->) H. apply contains_infix with (Py.lower (u ++ x ++ v)); [|done].
  rewrite !lower_app. by exists (Py.lower u), (Py.lower v).
Qed.

Lemma startswith_ci_shorten p x y :
  Re.startswith_ci p (x ++ y) = true -> length p <= length x ->
  Re.startswith_ci p x = true.
Proof.
  revert x. induction p as [|a p IH]; intros [|b x]; simpl; try done; try lia.
  rewrite !andb_true_iff. intros [H1 H2] Hl. split; [done|].
  apply IH; [done | lia].
Qed.

Lemma search_ci_None p s : Re.search_ci p s = None -> no_match_in p s.
Proof.
  induction s as [|c s IH]; intros H u v E.
  - symmetry in E. apply app_eq_nil in E as [_ ->].
    rewrite search_ci_unfold in H.
    by destruct (Re.startswith_ci p []).
  - rewrite search_ci_unfold in H.
    destruct (Re.startswith_ci p (c :: s)) eqn:Hc; [discriminate|].
    destruct u as [|d u]; simpl in E.
    + by rewrite <- E.
    + injection E as _ E. apply (IH ltac:(by destruct (Re.search_ci p s) as [[? ?]|]) u v E).
Qed.

(** The final-marker step on a text with a known first match. *)
Lemma after_final_marker_first b m a :
  Py.lower m = final_marker ->
  no_match_in final_marker (b ++ removelast m) ->
  after_final_marker (b ++ m ++ a) = Py.strip a.
Proof.
  intros Em Hb.
  destruct (marker_spelling m Em) as (Hne & _ & Hl).
  unfold after_final_marker.
  assert (Py.contains final_marker (Py.lower (b ++ m ++ a)) = true) as ->.
  { apply contains_spec. rewrite !lower_app, Em.
    by exists (Py.lower b), (Py.lower a). }
  unfold Re.split1_ci. rewrite (search_ci_first final_marker b m a); try done.
  - apply startswith_lower_ci; [done|]. rewrite lower_app, Em.
    apply startswith_spec. eauto.
  - intros b1 b2 -> Hb2.
    destruct (Re.startswith_ci final_marker (b2 ++ m ++ a)) eqn:E; [|done].
    exfalso.
    rewrite (app_removelast_last (ascii_of_nat 0) Hne) in E.
    rewrite <- app_assoc, app_assoc in E.
    apply startswith_ci_shorten in E.
    + rewrite (Hb b1 (b2 ++ removelast m)) in E; [discriminate|].
      by rewrite <- app_assoc.
    + rewrite length_app.
      assert (length (removelast m) = length m - 1) as ->.
      { rewrite (app_removelast_last (ascii_of_nat 0) Hne) at 2.
        rewrite length_app. simpl. lia. }
      rewrite Hl. destruct b2; [done|]. simpl. lia.
Qed.

(** X4: in a text without the sentinel, whatever precedes the first match of
    the pattern [(?i)assistantfinal] and the match itself are discarded: if
    [m] is a spelling of the marker ([m.lower()] is the marker), the pattern
    has no match that starts before [m], and the lower-cased text after [m]
    does not hold the marker, the result is that of the text after [m]. *)
Theorem final_marker_cut b m a :
  Py.lower m = final_marker ->
  Re.search_ci final_marker (b ++ removelast m) = None ->
  Py.contains sentinel (b ++ m ++ a) = false ->
  Py.contains final_marker (Py.lower a) = false ->
  clean_completion (b ++ m ++ a) = clean_completion a.
Proof.
  intros Em Hb Hs Ha. apply search_ci_None in Hb.
  destruct (marker_spelling m Em) as (Hne & Ht & _).
  rewrite !clean_completion_hd. unfold cleaned_lines.
  rewrite (strip_around b m a) by done.
  assert (infix_of (Py.lstrip b ++ m ++ Py.rstrip a) (b ++ m ++ a)) as Hi.
  { rewrite <- (strip_around b m a) by done. apply strip_infix. }
  rewrite after_sentinel_id by (by apply contains_infix with (b ++ m ++ a)).
  rewrite after_final_marker_first; [|done|].
  - rewrite strip_rstrip.
    rewrite after_sentinel_id.
    + unfold after_final_marker.
      by rewrite (contains_lower_infix _ _ a (strip_infix a) Ha).
    + apply contains_infix with (b ++ m ++ a); [|done].
      apply infix_of_trans with a; [apply strip_infix|].
      rewrite app_assoc. apply infix_of_suffix.
  - intros u v E. destruct (lstrip_decompose b) as (ws & Eb & _).
    apply (Hb (ws ++ u) v). rewrite Eb at 1. by rewrite <- !app_assoc, E.
Qed.

Lemma final_marker_cut_witness :
  Py.lower (py "AssistantFinal") = final_marker /\
  Re.search_ci final_marker
    (py "some reasoning " ++ removelast (py "AssistantFinal")) = None /\
  Py.contains sentinel
    (py "some reasoning " ++ py "AssistantFinal" ++ py " The answer is 42") = false /\
  Py.contains final_marker (Py.lower (py " The answer is 42")) = false /\
  clean_completion
    (py "some reasoning " ++ py "AssistantFinal" ++ py " The answer is 42")
  = clean_completion (py " The answer is 42").
Proof.
  split; [reflexivity|]. split; [reflexivity|]. split; [reflexivity|].
  split; [reflexivity|].
  apply (final_marker_cut (py "some reasoning ") (py "AssistantFinal")
           (py " The answer is 42")); reflexivity.
Defined.

(** ** More on the handler *)

Lemma params_stream req : params req !! "stream" = Some (JBool false).
Proof.
  unfold params. destruct (stop_val req) as [s|]; [destruct (truthy s)|].
  - rewrite lookup_insert_ne by done. reflexivity.
  - reflexivity.
  - reflexivity.
Qed.

(** X12: a run that passes the stream check logs exactly one outbound call,
    whatever its outcome: to the generate URL, with a timeout of 300, with the
    prompt of the messages as [text_input] and with [stream] false in the
    parameters. *)
Theorem one_outbound_call req en st :
  stream_on req = false ->
  exists c ps,
    calls (snd (chat_completions req en st)) = calls st ++ [c] /\
    url c = generate_url en /\
    timeout c = 300%Z /\
    body c = JDict {[ "text_input" := JStr (messages_to_prompt (messages req));
                      "parameters" := JDict ps ]} /\
    ps !! "stream" = Some (JBool false).
Proof.
  intros Hs. eexists _, (params req). rewrite chat_completions_sends by done.
  repeat split. apply params_stream.
Qed.

Lemma one_outbound_call_witness :
  stream_on (request_of None None None) = false /\
  exists c ps,
    calls (snd (chat_completions (request_of None None None)
                  (env_of running_clock (inl read_timeout)) st0))
      = calls st0 ++ [c] /\
    url c = generate_url (env_of running_clock (inl read_timeout)) /\
    timeout c = 300%Z /\
    body c = JDict {[ "text_input" :=
                        JStr (messages_to_prompt
                                (messages (request_of None None None)));
                      "parameters" := JDict ps ]} /\
    ps !! "stream" = Some (JBool false).
Proof.
  split; [reflexivity|].
  apply (one_outbound_call (request_of None None None)
           (env_of running_clock (inl read_timeout)) st0).
  reflexivity.
Defined.

(** X13: a reply whose status is not 200, other success codes included,
    makes the handler raise the error of status 502 that carries the status
    and the body text of the reply, after two clock readings and the one
    call. *)
Theorem backend_status_passthrough req en st r :
  stream_on req = false ->
  requests_post en (generate_url en) (JDict (payload req)) 300 = inr r ->
  status_code r <> 200%Z ->
  chat_completions req en st =
    (Raises (HTTPException 502
       (DetailDict {[ "triton_status" := JInt (status_code r);
                      "triton_body" := JStr (text r) ]})),
     after_call req en st 2).
Proof. intros Hs Hp Hc. by apply chat_completions_status. Qed.

Lemma backend_status_passthrough_witness :
  stream_on (request_of None None None) = false /\
  requests_post (env_of running_clock (inr no_content_reply))
    (generate_url (env_of running_clock (inr no_content_reply)))
    (JDict (payload (request_of None None None))) 300 = inr no_content_reply /\
  status_code no_content_reply <> 200%Z /\
  chat_completions (request_of None None None)
                   (env_of running_clock (inr no_content_reply)) st0 =
    (Raises (HTTPException 502
       (DetailDict {[ "triton_status" := JInt (status_code no_content_reply);
                      "triton_body" := JStr (text no_content_reply) ]})),
     after_call (request_of None None None)
                (env_of running_clock (inr no_content_reply)) st0 2).
Proof.
  split; [reflexivity|]. split; [reflexivity|]. split; [discriminate|].
  apply (backend_status_passthrough (request_of None None None)
           (env_of running_clock (inr no_content_reply)) st0 no_content_reply);
    [reflexivity | reflexivity | discriminate].
Defined.

(** The steps of a run after a reply of status 200. *)
Lemma chat_completions_after_200 req en st r :
  stream_on req = false ->
  the_call req en = inr r ->
  status_code r = 200%Z ->
  chat_completions req en st =
    match json_of r with
    | inl e => (Raises e, after_call req en st 2)
    | inr data =>
        match get_text_output data with
        | inl e => (Raises e, after_call req en st 2)
        | inr raw_text =>
            match clean_completion_dyn raw_text with
            | inl e => (Raises e, after_call req en st 2)
            | inr text =>
                match id_stamp en st with
                | inl e => (Raises e, after_call req en st 3)
                | inr ms =>
                    match created_stamp en st with
                    | inl e => (Raises e, after_call req en st 4)
                    | inr created =>
                        (Returns (completion req (TRITON_MODEL en) text ms
                                             created (latency en st)),
                         after_call req en st 4)
                    end
                end
            end
        end
    end.
Proof.
  intros Hs Hp Hc. unfold chat_completions. rewrite Hs. run_steps.
  unfold the_call in Hp. rewrite Hp. simpl.
  apply Z.eqb_eq in Hc. rewrite Hc. simpl.
  destruct (json_of r) as [e|data]; [reflexivity|]. simpl.
  destruct (get_text_output data) as [e|raw_text]; [reflexivity|]. simpl.
  destruct (clean_completion_dyn raw_text) as [e|text]; [reflexivity|]. simpl.
  unfold id_stamp, created_stamp.
  destruct (int_of_float _) as [e|ms]; [reflexivity|]. simpl.
  destruct (int_of_float (time_time _ _)) as [e|created]; reflexivity.
Qed.

(** X14: a reply of status 200 that cannot be used raises and gives no
    response: [JSONDecodeError] when the body does not decode,
    [AttributeError] when it decodes to something that is not an object, or
    when [text_output] is a truthy value that is not a string. *)
Theorem malformed_reply_raises req en st r :
  stream_on req = false ->
  requests_post en (generate_url en) (JDict (payload req)) 300 = inr r ->
  status_code r = 200%Z ->
  (json_body r = None ->
   chat_completions req en st = (Raises JSONDecodeError, after_call req en st 2))
  /\
  (forall data, json_body r = Some data -> (forall d, data <> JDict d) ->
   chat_completions req en st = (Raises AttributeError, after_call req en st 2))
  /\
  (forall d v, json_body r = Some (JDict d) -> d !! "text_output" = Some v ->
   (forall s, v <> JStr s) -> json_truthy v = true ->
   chat_completions req en st = (Raises AttributeError, after_call req en st 2)).
Proof.
  intros Hs Hp Hc. rewrite (chat_completions_after_200 req en st r) by done.
  unfold json_of. split; [|split].
  - by intros ->.
  - intros data -> Hd. destruct data; try reflexivity. by destruct (Hd d).
  - intros d v -> Hv Hn Ht. simpl. rewrite Hv. simpl.
    destruct v; simpl in *; rewrite ?Ht; try reflexivity.
    + discriminate Ht.
    + by destruct (Hn s).
Qed.

Lemma malformed_reply_raises_witness :
  stream_on (request_of None None None) = false /\
  requests_post (env_of running_clock (inr html_reply))
    (generate_url (env_of running_clock (inr html_reply)))
    (JDict (payload (request_of None None None))) 300 = inr html_reply /\
  status_code html_reply = 200%Z /\
  json_body html_reply = None /\
  chat_completions (request_of None None None)
                   (env_of running_clock (inr html_reply)) st0 =
    (Raises JSONDecodeError,
     after_call (request_of None None None)
                (env_of running_clock (inr html_reply)) st0 2).
Proof.
  split; [reflexivity|]. split; [reflexivity|]. split; [reflexivity|].
  split; [reflexivity|].
  apply (proj1 (malformed_reply_raises (request_of None None None)
                  (env_of running_clock (inr html_reply)) st0 html_reply
                  eq_refl eq_refl eq_refl)).
  reflexivity.
Defined.

Lemma completion_choices req bm text ms created dt :
  completion req bm text ms created dt !! "choices" =
    Some (JList [choice_of text]).
Proof. reflexivity. Qed.

(** X15: a reply of status 200 whose object has no [text_output], or has it
    null or made of whitespace only, gives a successful response whose content
    is the empty string. *)
Theorem empty_answer req en st r d ms created :
  stream_on req = false ->
  requests_post en (generate_url en) (JDict (payload req)) 300 = inr r ->
  status_code r = 200%Z ->
  json_body r = Some (JDict d) ->
  (d !! "text_output" = None \/ d !! "text_output" = Some JNull \/
   exists s, d !! "text_output" = Some (JStr s) /\ blank s) ->
  id_stamp en st = inr ms ->
  created_stamp en st = inr created ->
  exists resp,
    chat_completions req en st = (Returns resp, after_call req en st 4) /\
    resp !! "choices" = Some (JList [choice_of []]).
Proof.
  intros Hs Hp Hc Hj Hd Hm Hcr.
  exists (completion req (TRITON_MODEL en) [] ms created (latency en st)).
  split; [|apply completion_choices].
  rewrite (chat_completions_after_200 req en st r) by done.
  unfold json_of. rewrite Hj. simpl.
  assert (clean_completion_dyn (default (JStr []) (d !! "text_output")) = inr [])
    as ->.
  { destruct Hd as [-> | [-> | (s & -> & Hb)]]; try reflexivity.
    simpl. by rewrite clean_completion_of_blank. }
  by rewrite Hm, Hcr.
Qed.

Lemma empty_answer_witness :
  stream_on (request_of None None None) = false /\
  requests_post (env_of running_clock (inr empty_object_reply))
    (generate_url (env_of running_clock (inr empty_object_reply)))
    (JDict (payload (request_of None None None))) 300 = inr empty_object_reply /\
  status_code empty_object_reply = 200%Z /\
  json_body empty_object_reply = Some (JDict ∅) /\
  (∅ : gmap string json) !! "text_output" = None /\
  id_stamp (env_of running_clock (inr empty_object_reply)) st0
    = inr 1700000002000%Z /\
  created_stamp (env_of running_clock (inr empty_object_reply)) st0
    = inr 1700000002%Z /\
  exists resp,
    chat_completions (request_of None None None)
                     (env_of running_clock (inr empty_object_reply)) st0 =
      (Returns resp,
       after_call (request_of None None None)
                  (env_of running_clock (inr empty_object_reply)) st0 4) /\
    resp !! "choices" = Some (JList [choice_of []]).
Proof.
  split; [reflexivity|]. split; [reflexivity|]. split; [reflexivity|].
  split; [reflexivity|]. split; [reflexivity|].
  split; [vm_compute; reflexivity|]. split; [vm_compute; reflexivity|].
  apply (empty_answer (request_of None None None)
           (env_of running_clock (inr empty_object_reply)) st0
           empty_object_reply ∅ 1700000002000 1700000002);
    [ reflexivity | reflexivity | reflexivity | reflexivity
    | left; reflexivity
    | vm_compute; reflexivity | vm_compute; reflexivity ].
Defined.

Lemma clean_completion_dyn_tidy raw c :
  clean_completion_dyn raw = inr c ->
  Py.contains sentinel c = false /\ no_break c /\ Py.strip c = c.
Proof.
  assert (Py.contains sentinel [] = false /\ no_break [] /\ Py.strip [] = [])
    as Hnil by (repeat split; constructor).
  destruct raw; simpl;
    try (destruct (json_truthy _); [discriminate | by intros [= <-]]);
    try (destruct (negb _); [discriminate | by intros [= <-]]);
    try (destruct b; [discriminate | by intros [= <-]]);
    try (by intros [= <-]).
  - intros [= <-].
    destruct (clean_completion_cases s) as [-> | ((_ & Ht & Hb & _) & Hs & _)];
      [done|].
    split; [done|]. split; [done | by apply trimmed_strip].
  - destruct l; [by intros [= <-] | discriminate].
Qed.

(** X16: the content of every successful response is a single trimmed line
    without the sentinel, and [choices] holds exactly one entry, of index 0,
    role assistant and finish reason stop. *)
Theorem response_content_tidy req en st resp st' :
  chat_completions req en st = (Returns resp, st') ->
  exists c,
    resp !! "choices" = Some (JList [choice_of c]) /\
    Py.contains sentinel c = false /\ no_break c /\ Py.strip c = c.
Proof.
  intros H.
  apply chat_completions_returns in H
    as (r & d & w & x & ms & cr & _ & _ & _ & _ & _ & Hx & _ & _ & -> & _).
  exists x. split; [apply completion_choices|].
  by apply clean_completion_dyn_tidy with w.
Qed.

Lemma response_content_tidy_witness :
  chat_completions (request_of None None None)
                   (env_of running_clock (inr ok_reply)) st0 =
    (Returns (completion (request_of None None None) (py "vllm_model")
                         (py "OK") 1700000002000 1700000002 0.75),
     after_call (request_of None None None)
                (env_of running_clock (inr ok_reply)) st0 4) /\
  exists c,
    completion (request_of None None None) (py "vllm_model")
               (py "OK") 1700000002000 1700000002 0.75 !! "choices"
      = Some (JList [choice_of c]) /\
    Py.contains sentinel c = false /\ no_break c /\ Py.strip c = c.
Proof.
  assert (chat_completions (request_of None None None)
                   (env_of running_clock (inr ok_reply)) st0 =
    (Returns (completion (request_of None None None) (py "vllm_model")
                         (py "OK") 1700000002000 1700000002 0.75),
     after_call (request_of None None None)
                (env_of running_clock (inr ok_reply)) st0 4)) as H
    by (vm_compute; reflexivity).
  split; [exact H|].
  exact (response_content_tidy _ _ _ _ _ H).
Defined.

(** X17: a successful response names the model of the request when it is a
    non-empty string; when the request has no model, or the empty string, it
    names the configured model, the one [list_models] lists and [health]
    reports. *)
Theorem response_model req en st resp st' :
  chat_completions req en st = (Returns resp, st') ->
  (forall m, model req = Some m -> m <> [] -> resp !! "model" = Some (JStr m)) /\
  (model req = None \/ model req = Some [] ->
   exists m,
     resp !! "model" = Some (JStr m) /\
     list_models en !! "data" =
       Some (JList [JDict {[ "id" := JStr m;
                             "object" := JStr (py "model") ]}]) /\
     health en !! "triton_model" = Some (JStr m)).
Proof.
  intros H.
  apply chat_completions_returns in H
    as (r & d & w & x & ms & cr & _ & _ & _ & _ & _ & _ & _ & _ & -> & _).
  rewrite completion_model. split.
  - intros m -> Hm. by destruct m.
  - intros Hm. exists (TRITON_MODEL en). split; [|split; reflexivity].
    by destruct Hm as [-> | ->].
Qed.

Lemma response_model_witness :
  chat_completions (request_of None None None)
                   (env_of running_clock (inr ok_reply)) st0 =
    (Returns (completion (request_of None None None) (py "vllm_model")
                         (py "OK") 1700000002000 1700000002 0.75),
     after_call (request_of None None None)
                (env_of running_clock (inr ok_reply)) st0 4) /\
  (model (request_of None None None) = None \/
   model (request_of None None None) = Some []) /\
  exists m,
    completion (request_of None None None) (py "vllm_model")
               (py "OK") 1700000002000 1700000002 0.75 !! "model"
      = Some (JStr m) /\
    list_models (env_of running_clock (inr ok_reply)) !! "data" =
      Some (JList [JDict {[ "id" := JStr m;
                            "object" := JStr (py "model") ]}]) /\
    health (env_of running_clock (inr ok_reply)) !! "triton_model"
      = Some (JStr m).
Proof.
  assert (chat_completions (request_of None None None)
                   (env_of running_clock (inr ok_reply)) st0 =
    (Returns (completion (request_of None None None) (py "vllm_model")
                         (py "OK") 1700000002000 1700000002 0.75),
     after_call (request_of None None None)
                (env_of running_clock (inr ok_reply)) st0 4)) as H
    by (vm_compute; reflexivity).
  split; [exact H|]. split; [by left|].
  apply (proj2 (response_model _ _ _ _ _ H)). by left.
Defined.

(** X18: a stop list and the string of its first element give the same
    parameters and the same payload: the other elements are ignored. *)
Theorem stop_list_first_only mo ms t k sm x xs :
  let req sp := {| model := mo; messages := ms; temperature := t;
                   max_tokens := k; stream := sm; stop := sp |} in
  params (req (Some (StopList (x :: xs)))) = params (req (Some (StopStr x))) /\
  payload (req (Some (StopList (x :: xs)))) = payload (req (Some (StopStr x))).
Proof. split; reflexivity. Qed.


(** ** Configuration *)

Lemma lstrip_chars_head chars s c r :
  lstrip_chars chars s = c :: r -> existsb (Ascii.eqb c) chars = false.
Proof.
  induction s as [|d s IH]; simpl; [done|].
  destruct (existsb (Ascii.eqb d) chars) eqn:E; [done|].
  by intros [= <- _].
Qed.

Lemma rstrip_chars_snoc chars s c :
  existsb (Ascii.eqb c) chars = true ->
  rstrip_chars chars (s ++ [c]) = rstrip_chars chars s.
Proof.
  intros H. unfold rstrip_chars. rewrite rev_app_distr. simpl. by rewrite H.
Qed.

Lemma rstrip_chars_keep chars s c :
  existsb (Ascii.eqb c) chars = false ->
  rstrip_chars chars (s ++ [c]) = s ++ [c].
Proof.
  intros H. unfold rstrip_chars. rewrite rev_app_distr. simpl. rewrite H.
  change (c :: rev s) with (rev [c] ++ rev s).
  by rewrite <- rev_app_distr, rev_involutive.
Qed.

(** X20: the configured base URL never ends with a slash: a trailing slash in
    the environment variable changes nothing of the configuration, and a value
    that ends otherwise is kept as it is. *)
Theorem base_url_slashes environ clock backend :
  (forall u, TRITON_BASE (configure environ clock backend) <> u ++ py "/") /\
  (forall s,
     configure (<["TRITON_BASE" := s ++ py "/"]> environ) clock backend
     = configure (<["TRITON_BASE" := s]> environ) clock backend) /\
  (forall s c, c <> "/"%char ->
     TRITON_BASE (configure (<["TRITON_BASE" := s ++ [c]]> environ)
                            clock backend) = s ++ [c]).
Proof.
  split; [|split].
  - intros u E. simpl in E. unfold rstrip_chars in E.
    apply (f_equal (@rev ascii)) in E.
    rewrite rev_involutive, rev_app_distr in E. simpl in E.
    apply lstrip_chars_head in E. discriminate E.
  - intros s. unfold configure, environ_get.
    rewrite !lookup_insert_eq, !lookup_insert_ne by done. f_equal.
    apply (rstrip_chars_snoc (py "/") s "/"%char). reflexivity.
  - intros s c Hc. unfold configure, environ_get. cbn [TRITON_BASE].
    rewrite lookup_insert_eq.
    apply (rstrip_chars_keep (py "/") s c).
    cbn. rewrite orb_false_r. by apply Ascii.eqb_neq.
Qed.

(** ** Answers the cleaner returns whole *)

Lemma after_final_marker_id t :
  Py.contains final_marker (Py.lower t) = false -> after_final_marker t = t.
Proof. intros H. unfold after_final_marker. by rewrite H. Qed.

Lemma clean_completion_padded ws1 l ws2 :
  blank ws1 -> blank ws2 -> trimmed l ->
  clean_completion (ws1 ++ l ++ ws2) = clean_completion l.
Proof.
  intros H1 H2 Ht. rewrite !clean_completion_hd. unfold cleaned_lines.
  by rewrite strip_sandwich, (trimmed_strip l Ht).
Qed.

(** X9: a one-line answer that holds no sentinel, no final marker and no role
    label is returned as it is, whether it comes alone or after the echoed
    prompt, and whatever whitespace surrounds it. *)
Theorem plain_answer_recovered ms ws1 l ws2 :
  blank ws1 -> blank ws2 -> good_line l ->
  Py.contains sentinel l = false ->
  Py.contains final_marker (Py.lower l) = false ->
  clean_completion (messages_to_prompt ms ++ ws1 ++ l ++ ws2) = l /\
  clean_completion (ws1 ++ l ++ ws2) = l.
Proof.
  intros H1 H2 Hg Hs Hf.
  assert (clean_completion (ws1 ++ l ++ ws2) = l) as E.
  { rewrite clean_completion_padded; [by apply clean_good_line | done | done |].
    apply Hg. }
  split; [|exact E].
  destruct (prompt_ends_with_sentinel ms) as [body ->].
  by rewrite <- app_assoc, clean_completion_echo_any.
Qed.

Lemma plain_answer_recovered_witness :
  blank (py " ") /\ blank newline /\ good_line (py "OK") /\
  Py.contains sentinel (py "OK") = false /\
  Py.contains final_marker (Py.lower (py "OK")) = false /\
  clean_completion (messages_to_prompt [user_says "Say only: OK"]
                    ++ py " " ++ py "OK" ++ newline) = py "OK".
Proof.
  assert (blank (py " ")) as H1 by (repeat constructor).
  assert (blank newline) as H2 by (repeat constructor).
  assert (good_line (py "OK")) as Hg.
  { split; [discriminate|]. split; [split; reflexivity|].
    split; [repeat constructor | reflexivity]. }
  split; [exact H1|]. split; [exact H2|]. split; [exact Hg|].
  split; [reflexivity|]. split; [reflexivity|].
  apply (proj1 (plain_answer_recovered [user_says "Say only: OK"]
                  (py " ") (py "OK") newline H1 H2 Hg eq_refl eq_refl)).
Defined.

(** X10: when the text holds no sentinel and no final marker and its first
    line is a plain trimmed line, the cleaner returns that line and drops all
    that follows. *)
Theorem first_line_returned l rest :
  good_line l ->
  Py.contains sentinel (l ++ newline ++ rest) = false ->
  Py.contains final_marker (Py.lower (l ++ newline ++ rest)) = false ->
  clean_completion (l ++ newline ++ rest) = l.
Proof.
  intros (Hne & Ht & Hb & Hm) Hs Hf.
  rewrite clean_completion_hd. unfold cleaned_lines.
  pose proof (strip_around [] l (newline ++ rest) Hne Ht) as E.
  simpl app in E. simpl app. rewrite E.
  assert (infix_of (l ++ Py.rstrip (Py.LF :: rest)) (l ++ Py.LF :: rest)) as Hi.
  { rewrite <- E. apply strip_infix. }
  rewrite after_sentinel_id by (by apply contains_infix with (l ++ Py.LF :: rest)).
  rewrite after_final_marker_id
    by (by apply contains_lower_infix with (l ++ Py.LF :: rest)).
  rewrite drop_transcript_lines_filter.
  destruct (rstrip_decompose (Py.LF :: rest)) as (ws & Er & _).
  destruct (Py.rstrip (Py.LF :: rest)) as [|c R].
  - rewrite app_nil_r, splitlines_single by done. simpl.
    rewrite (trimmed_strip l Ht), filter_cons. unfold kept. rewrite Hm.
    by destruct l.
  - injection Er as <- _. rewrite splitlines_first by done. simpl.
    rewrite (trimmed_strip l Ht), filter_cons. unfold kept. rewrite Hm.
    by destruct l.
Qed.

Lemma first_line_returned_witness :
  good_line (py "Line one") /\
  Py.contains sentinel (py "Line one" ++ newline ++ py "Line two") = false /\
  Py.contains final_marker
    (Py.lower (py "Line one" ++ newline ++ py "Line two")) = false /\
  clean_completion (py "Line one" ++ newline ++ py "Line two") = py "Line one".
Proof.
  assert (good_line (py "Line one")) as Hg.
  { split; [discriminate|]. split; [split; reflexivity|].
    split; [repeat constructor | reflexivity]. }
  split; [exact Hg|]. split; [reflexivity|]. split; [reflexivity|].
  apply (first_line_returned (py "Line one") (py "Line two") Hg);
    reflexivity.
Defined.

(** ** The prompt does not escape contents *)

Lemma messages_to_prompt_concat ms :
  messages_to_prompt ms =
    concat (map (fun m => turn_line m ++ newline) ms) ++ sentinel.
Proof.
  unfold messages_to_prompt. rewrite fold_prompt_step. simpl.
  by rewrite join_snoc, map_map.
Qed.

(** X11: contents are not escaped: a turn whose content goes on with a newline
    and the line of another turn gives the same prompt as the two turns. *)
Theorem prompt_not_escaped before r c m after :
  messages_to_prompt
    (before ++ [{| role := r; content := c ++ newline ++ turn_line m |}] ++ after)
  = messages_to_prompt
      (before ++ [{| role := r; content := c |}; m] ++ after).
Proof.
  rewrite !messages_to_prompt_concat. f_equal.
  rewrite !map_app, !concat_app. f_equal. f_equal.
  cbn [map concat]. unfold turn_line at 1 3. cbn [role content].
  unfold newline. rewrite <- !app_assoc. reflexivity.
Qed.

Lemma base_url_slashes_witness :
  TRITON_BASE (configure {[ "TRITON_BASE" := py "http://triton:8000//" ]}
                         running_clock (fun _ _ _ => inr ok_reply))
    = py "http://triton:8000" /\
  "0"%char <> "/"%char /\
  TRITON_BASE (configure (<["TRITON_BASE" := py "http://triton:800" ++ ["0"%char]]> ∅)
                         running_clock (fun _ _ _ => inr ok_reply))
    = py "http://triton:800" ++ ["0"%char].
Proof.
  split; [reflexivity|]. split; [discriminate|].
  apply (proj2 (proj2 (base_url_slashes ∅ running_clock
                         (fun _ _ _ => inr ok_reply)))
               (py "http://triton:800") "0"%char).
  discriminate.
Defined.
